(** * GuitarToClick: the onset detector of [main.py]

    A shallow embedding of class [GuitarMouseClicker] and the properties of
    its volume estimator, debouncer and start/stop life cycle.

    Modelling choices, all visible in the definitions below:
    - Python floats (samples, volumes, thresholds, timestamps) are real
      numbers of [R]; comparisons are the decidable order of [R], so rounding,
      infinities and NaN are outside the model.
    - [self] is the record [detector]; a method is a computation of the monad
      [M], which threads the detector, records what the method prints or
      spawns, and either returns a value or raises.
    - [time.time()] is an argument ([current_time]) of the computation that
      reads the clock.
    - The audio backend is its observable behaviour during one [start()]: the
      callbacks it delivers and the exception that ends the [with] block.
    - The console front end ([setup_audio], [click_mouse],
      [test_audio_levels], [main]) runs in the monad [IO], whose trace also
      holds the printed lines and the calls of [input]. What the user types
      is given as read: a stripped choice line, and for the numbers the
      result of [int(...)] or [float(...)], with no result when Python raises
      [ValueError]. Device names are ASCII text. *)

From Stdlib Require Import String Ascii ZArith Reals Lra List Sorted Bool Arith Lia.
Import ListNotations.

Open Scope R_scope.

(** ** Numbers *)

(** [a > b] on Python floats, as a boolean. *)
Definition Rgtb (a b : R) : bool := if Rgt_dec a b then true else false.

(** [a < b] on Python floats, as a boolean. *)
Definition Rltb (a b : R) : bool := if Rlt_dec a b then true else false.

(** Python's two-argument [max(a, b)]: the first argument unless the second
    is strictly greater. *)
Definition py_max (a b : R) : R := if Rgtb b a then b else a.

(** Python's two-argument [min(a, b)]: the first argument unless the second
    is strictly smaller. *)
Definition py_min (a b : R) : R := if Rltb b a then b else a.

(** ** [collections.deque(maxlen=n)] *)

Record deque : Type := mk_deque { maxlen : nat; items : list R }.

(** [deque(maxlen=n)]: an empty bounded deque. *)
Definition deque_new (n : nat) : deque := {| maxlen := n; items := [] |}.

(** [d.append(x)]: with [maxlen = 0] the element is discarded; otherwise it is
    added on the right and, when the deque was full, the leftmost element
    is dropped. *)
Definition deque_append (d : deque) (x : R) : deque :=
  match maxlen d with
  | O => d
  | S _ =>
      if Nat.ltb (length (items d)) (maxlen d)
      then {| maxlen := maxlen d; items := items d ++ [x] |}
      else {| maxlen := maxlen d; items := tl (items d) ++ [x] |}
  end.

(** The bound every Python deque satisfies. *)
Definition deque_bounded (d : deque) : Prop := (length (items d) <= maxlen d)%nat.

(** The last [n] elements of a list. *)
Definition lastn (n : nat) (l : list R) : list R := skipn (length l - n) l.

(** ** numpy arrays delivered by the audio backend *)

(** A one-dimensional array of samples, or a two-dimensional array of frames;
    each frame holds the sample of channel 0 and those of the other channels
    (the stream is opened with [channels >= 1]). *)
Inductive ndarray : Type :=
| Array1 (samples : list R)
| Array2 (frames : list (R * list R)).

(** [indata.ndim > 1]. *)
Definition ndim_gt_1 (a : ndarray) : bool :=
  match a with Array1 _ => false | Array2 _ => true end.

(** [indata[:, 0]]: the sample of channel 0 of every frame (a one-dimensional
    array has no second axis; the callback never slices one). *)
Definition column0 (a : ndarray) : list R :=
  match a with
  | Array1 samples => samples
  | Array2 frames => map fst frames
  end.

(** [indata.flatten()]: all samples in row-major order. *)
Definition flatten (a : ndarray) : list R :=
  match a with
  | Array1 samples => samples
  | Array2 frames => flat_map (fun f => fst f :: snd f) frames
  end.

(** [audio_data ** 2]. *)
Definition np_square (l : list R) : list R := map (fun x => x * x) l.

(** [np.sum]. *)
Definition np_sum (l : list R) : R := fold_right Rplus 0 l.

(** [np.mean] of a non-empty array. *)
Definition np_mean (l : list R) : R := np_sum l / INR (length l).

(** ** The detector object *)

Record detector : Type := mk_detector {
  CHUNK : Z;
  CHANNELS : Z;
  RATE : Z;
  THRESHOLD : R;
  DEBOUNCE_TIME : R;
  WINDOW_SIZE : nat;
  is_running : bool;
  last_click_time : R;
  volume_history : deque;
  stop_event : bool;
  device_index : Z
}.

Definition set_THRESHOLD (v : R) (s : detector) : detector :=
  mk_detector (CHUNK s) (CHANNELS s) (RATE s) v (DEBOUNCE_TIME s)
    (WINDOW_SIZE s) (is_running s) (last_click_time s) (volume_history s)
    (stop_event s) (device_index s).

Definition set_is_running (v : bool) (s : detector) : detector :=
  mk_detector (CHUNK s) (CHANNELS s) (RATE s) (THRESHOLD s) (DEBOUNCE_TIME s)
    (WINDOW_SIZE s) v (last_click_time s) (volume_history s)
    (stop_event s) (device_index s).

Definition set_last_click_time (v : R) (s : detector) : detector :=
  mk_detector (CHUNK s) (CHANNELS s) (RATE s) (THRESHOLD s) (DEBOUNCE_TIME s)
    (WINDOW_SIZE s) (is_running s) v (volume_history s)
    (stop_event s) (device_index s).

Definition set_volume_history (v : deque) (s : detector) : detector :=
  mk_detector (CHUNK s) (CHANNELS s) (RATE s) (THRESHOLD s) (DEBOUNCE_TIME s)
    (WINDOW_SIZE s) (is_running s) (last_click_time s) v
    (stop_event s) (device_index s).

Definition set_stop_event (v : bool) (s : detector) : detector :=
  mk_detector (CHUNK s) (CHANNELS s) (RATE s) (THRESHOLD s) (DEBOUNCE_TIME s)
    (WINDOW_SIZE s) (is_running s) (last_click_time s) (volume_history s)
    v (device_index s).

(** [__init__]; [setup_audio] is console and device I/O whose two results are
    the chosen device and its preferred sample rate, which replaces 44100
    when it differs. *)
Definition init (chosen_device preferred_rate : Z) : detector :=
  {| CHUNK := 1024;
     CHANNELS := 1;
     RATE := if Z.eqb preferred_rate 44100 then 44100%Z else preferred_rate;
     THRESHOLD := 0.01;
     DEBOUNCE_TIME := 0.2;
     WINDOW_SIZE := 5;
     is_running := false;
     last_click_time := 0;
     volume_history := deque_new 5;
     stop_event := false;
     device_index := chosen_device |}.

(** ** Effects: what a method prints or spawns, and how it ends *)

Inductive text : Type :=
| AudioStatus (status : string)
| AlreadyRunning
| Listening (threshold : R)
| StrumHint
| PressCtrlC
| AudioStreamError (e : string)
| TroubleshootingTips
| Tip (n : nat)
| Stopping
| Stopped
| SensitivityAdjusted (threshold : R).

Inductive effect : Type :=
| Print (t : text)
| SpawnClick (volume : R).

Inductive exn : Type :=
| Exception (msg : string)
| KeyboardInterrupt.

Inductive outcome (A : Type) : Type :=
| Returned (a : A)
| Raised (e : exn).

Arguments Returned {A} a.
Arguments Raised {A} e.

Definition M (A : Type) : Type := detector -> outcome A * detector * list effect.

Definition ret {A : Type} (a : A) : M A := fun s => (Returned a, s, []).

Definition bind {A B : Type} (m : M A) (k : A -> M B) : M B :=
  fun s =>
    match m s with
    | (Returned a, s1, w1) =>
        match k a s1 with (r, s2, w2) => (r, s2, w1 ++ w2) end
    | (Raised e, s1, w1) => (Raised e, s1, w1)
    end.

Notation "x <- m ;; k" := (bind m (fun x => k))
  (at level 61, m at next level, right associativity).
Notation "m ;; k" := (bind m (fun _ => k))
  (at level 61, right associativity).

Definition get : M detector := fun s => (Returned s, s, []).
Definition modify (f : detector -> detector) : M unit :=
  fun s => (Returned tt, f s, []).
Definition emit (e : effect) : M unit := fun s => (Returned tt, s, [e]).
Definition print (t : text) : M unit := emit (Print t).
Definition raise {A : Type} (e : exn) : M A := fun s => (Raised e, s, []).

(** [try: body / except ...: handler e]. *)
Definition try_except {A : Type} (body : M A) (handler : exn -> M A) : M A :=
  fun s =>
    match body s with
    | (Returned a, s1, w1) => (Returned a, s1, w1)
    | (Raised e, s1, w1) =>
        match handler e s1 with (r, s2, w2) => (r, s2, w1 ++ w2) end
    end.

(** [try: body / finally: final]: the finaliser runs on every exit path and an
    exception of the body is raised again after it. *)
Definition try_finally {A : Type} (body : M A) (final : M unit) : M A :=
  fun s =>
    match body s with
    | (r, s1, w1) =>
        match final s1 with
        | (Returned _, s2, w2) => (r, s2, w1 ++ w2)
        | (Raised e, s2, w2) => (Raised e, s2, w1 ++ w2)
        end
    end.

Definition result_of {A : Type} (x : outcome A * detector * list effect) : outcome A :=
  fst (fst x).
Definition state_of {A : Type} (x : outcome A * detector * list effect) : detector :=
  snd (fst x).
Definition effects_of {A : Type} (x : outcome A * detector * list effect) : list effect :=
  snd x.

(** ** Methods of [GuitarMouseClicker] *)

(** [calculate_volume(audio_data)]. *)
Definition calculate_volume (audio_data : list R) : M R :=
  if Nat.eqb (length audio_data) 0 then ret 0
  else ret (sqrt (np_mean (np_square audio_data))).

(** [should_click(current_volume)], with the value read from [time.time()]. *)
Definition should_click (current_time current_volume : R) : M bool :=
  modify (fun s =>
    set_volume_history (deque_append (volume_history s) current_volume) s) ;;
  s <- get ;;
  let volume_spike := Rgtb current_volume (THRESHOLD s) in
  let time_passed :=
    Rgtb (current_time - last_click_time s) (DEBOUNCE_TIME s) in
  if volume_spike && time_passed then
    modify (set_last_click_time current_time) ;;
    ret true
  else ret false.

(** One invocation of the stream callback: the block, the status flags
    ([None] when falsy) and the clock value [should_click] will read. The
    [frames] and [time] arguments are not used by the callback. *)
Record callback : Type := mk_callback {
  indata : ndarray;
  status : option string;
  clock : R
}.

(** [audio_callback(indata, frames, time, status)]; the click thread it starts
    is recorded as [SpawnClick volume]. *)
Definition audio_callback (c : callback) : M unit :=
  match status c with
  | Some st => print (AudioStatus st)
  | None => ret tt
  end ;;
  s <- get ;;
  if stop_event s then ret tt
  else
    let audio_data :=
      if ndim_gt_1 (indata c) then column0 (indata c) else flatten (indata c) in
    volume <- calculate_volume audio_data ;;
    clicked <- should_click (clock c) volume ;;
    if clicked then emit (SpawnClick volume) else ret tt.

(** [stop()]. *)
Definition stop : M unit :=
  print Stopping ;;
  modify (set_is_running false) ;;
  modify (set_stop_event true) ;;
  print Stopped.

(** What the backend does during one [start()]: the callbacks it delivers
    while the caller sleeps in the polling loop, and the exception that ends
    the [with] block (a stream error, also when the stream fails to open, or
    Ctrl+C). Nothing inside the loop changes [is_running] or [stop_event], so
    the loop itself never ends the run. *)
Record stream_run : Type := mk_run {
  delivered : list callback;
  ending : exn
}.

Fixpoint deliver (cs : list callback) : M unit :=
  match cs with
  | [] => ret tt
  | c :: rest => audio_callback c ;; deliver rest
  end.

(** The first statements of [start()] on the path that starts a run: the flag
    updates and the three banner lines. *)
Definition start_prologue : M unit :=
  modify (set_is_running true) ;;
  modify (set_stop_event false) ;;
  s <- get ;;
  print (Listening (THRESHOLD s)) ;;
  print StrumHint ;;
  print PressCtrlC.

(** The two [except] clauses of [start()]. *)
Definition start_handler (e : exn) : M unit :=
  match e with
  | Exception msg =>
      print (AudioStreamError msg) ;;
      print TroubleshootingTips ;;
      print (Tip 1) ;; print (Tip 2) ;; print (Tip 3) ;; print (Tip 4)
  | KeyboardInterrupt => ret tt
  end.

(** [start()]. *)
Definition start (run : stream_run) : M unit :=
  s <- get ;;
  if is_running s then print AlreadyRunning
  else
    start_prologue ;;
    try_finally
      (try_except (deliver (delivered run) ;; raise (ending run)) start_handler)
      stop.

(** [adjust_sensitivity(new_threshold)]. *)
Definition adjust_sensitivity (new_threshold : R) : M unit :=
  modify (set_THRESHOLD (py_max 0.001 (py_min 1.0 new_threshold))) ;;
  s <- get ;;
  print (SensitivityAdjusted (THRESHOLD s)).

(** ** Derived views used in the statements *)

(** The trigger decision of [should_click] as a boolean expression. *)
Definition decision (current_time current_volume : R) (s : detector) : bool :=
  Rgtb current_volume (THRESHOLD s)
  && Rgtb (current_time - last_click_time s) (DEBOUNCE_TIME s).

(** The detector after [self.volume_history.append(current_volume)]. *)
Definition recorded (current_volume : R) (s : detector) : detector :=
  set_volume_history (deque_append (volume_history s) current_volume) s.

(** A detector on which no call has triggered yet: [last_click_time] still has
    the value [0] that [__init__] gave it. *)
Definition never_triggered (s : detector) : Prop := last_click_time s = 0.

(** The reading of the first-call rule that ignores the clock: a first call
    with a volume above the threshold returns [True] at every time. *)
Definition first_call_triggers_at (s : detector) (now v : R) : Prop :=
  never_triggered s -> v > THRESHOLD s ->
  result_of (should_click now v s) = Returned true.

(** A sequence of [should_click] calls, each a clock value and a volume, and
    the list of their return values. *)
Fixpoint click_sequence (calls : list (R * R)) : M (list bool) :=
  match calls with
  | [] => ret []
  | (t, v) :: rest =>
      b <- should_click t v ;;
      bs <- click_sequence rest ;;
      ret (b :: bs)
  end.

(** The detector after one call, and after a sequence of calls. *)
Definition after_click (t v : R) (s : detector) : detector :=
  state_of (should_click t v s).

Fixpoint after_calls (calls : list (R * R)) (s : detector) : detector :=
  match calls with
  | [] => s
  | (t, v) :: rest => after_calls rest (after_click t v s)
  end.

(** The decisions taken along a sequence of calls. *)
Fixpoint decisions (calls : list (R * R)) (s : detector) : list bool :=
  match calls with
  | [] => []
  | (t, v) :: rest => decision t v s :: decisions rest (after_click t v s)
  end.

(** The value [calculate_volume] returns. *)
Definition computed_volume (audio_data : list R) : R :=
  if Nat.eqb (length audio_data) 0 then 0
  else sqrt (np_mean (np_square audio_data)).

(** The samples the callback hands to [calculate_volume]. *)
Definition channel_samples (a : ndarray) : list R :=
  if ndim_gt_1 a then column0 a else flatten a.

(** The call of [should_click] a callback makes when the stop signal is not
    set: its clock value and the volume of its block. *)
Definition callback_call (c : callback) : R * R :=
  (clock c, computed_volume (channel_samples (indata c))).

(** Root mean square as the specification words it: the square root of the
    mean of the squared samples. *)
Definition mean (l : list R) : R := fold_left Rplus l 0 / INR (length l).
Definition rms (samples : list R) : R := sqrt (mean (map (fun x => x ^ 2) samples)).

(** The samples of the first channel of a block. *)
Definition first_channel (a : ndarray) : list R :=
  match a with
  | Array1 samples => samples
  | Array2 frames => map (fun frame => fst frame) frames
  end.

(** The history is the deque [__init__] built for [WINDOW_SIZE] readings, a
    positive number, and respects the bound of a deque. *)
Definition history_invariant (s : detector) : Prop :=
  maxlen (volume_history s) = WINDOW_SIZE s
  /\ (1 <= WINDOW_SIZE s)%nat
  /\ deque_bounded (volume_history s).

(** The detector after the first statements of a [start()] that starts a
    run, and after [stop()]. *)
Definition started (s : detector) : detector :=
  set_stop_event false (set_is_running true s).

Definition stopped (s : detector) : detector :=
  set_stop_event true (set_is_running false s).

(** What one callback, and a series of callbacks, print and spawn while the
    stop signal is clear. *)
Definition callback_effects (c : callback) (s : detector) : list effect :=
  match status c with Some st => [Print (AudioStatus st)] | None => [] end
  ++ if decision (fst (callback_call c)) (snd (callback_call c)) s
     then [SpawnClick (snd (callback_call c))] else [].

Fixpoint deliver_effects (cs : list callback) (s : detector) : list effect :=
  match cs with
  | [] => []
  | c :: rest =>
      callback_effects c s
      ++ deliver_effects rest
           (after_click (fst (callback_call c)) (snd (callback_call c)) s)
  end.

(** What the [except] clauses of [start()] print. *)
Definition handler_effects (e : exn) : list effect :=
  match e with
  | Exception msg =>
      [Print (AudioStreamError msg); Print TroubleshootingTips;
       Print (Tip 1); Print (Tip 2); Print (Tip 3); Print (Tip 4)]
  | KeyboardInterrupt => []
  end.

(** A detector state that carries nothing from an earlier run: empty history
    and the initial [last_click_time]. *)
Definition cleared (s : detector) : Prop :=
  items (volume_history s) = [] /\ last_click_time s = 0.

(** The reading of [start()] in which the state is cleared before the first
    block is processed. *)
Definition start_clears_state (s : detector) : Prop :=
  is_running s = false -> cleared (state_of (start_prologue s)).

(** A first run: one mono block of one sample 0.02 at clock value 1000, then
    Ctrl+C; and a second run: one block of one sample 0.05 at 1000.1, then
    Ctrl+C. *)
Definition first_run : stream_run :=
  {| delivered := [ {| indata := Array1 [0.02]; status := None; clock := 1000 |} ];
     ending := KeyboardInterrupt |}.

Definition second_run : stream_run :=
  {| delivered := [ {| indata := Array1 [0.05]; status := None; clock := 1000.1 |} ];
     ending := KeyboardInterrupt |}.

Definition after_first_run : detector := state_of (start first_run (init 0 44100)).

(** The reading of [stop()] in which stopping an idle detector changes
    nothing. *)
Definition stop_leaves_state (s : detector) : Prop :=
  is_running s = false ->
  result_of (stop s) = Returned tt /\ state_of (stop s) = s.

(** The reading of [adjust_sensitivity] in which a non-positive threshold is
    rejected with an error. *)
Definition rejects_non_positive (new_threshold : R) (s : detector) : Prop :=
  new_threshold <= 0 ->
  exists e : exn, result_of (adjust_sensitivity new_threshold s) = Raised e.

(** The configuration invariant: threshold in (0, 1], positive debounce. *)
Definition config_invariant (s : detector) : Prop :=
  0 < THRESHOLD s <= 1 /\ 0 < DEBOUNCE_TIME s.

(** ** Views used by the further properties *)

(** The number of [True] results among the decisions of a call sequence. *)
Definition clicks (results : list bool) : nat := count_occ bool_dec results true.

(** The volumes of the click threads recorded in an effect trace, in order. *)
Fixpoint spawned (w : list effect) : list R :=
  match w with
  | [] => []
  | SpawnClick volume :: rest => volume :: spawned rest
  | Print _ :: rest => spawned rest
  end.

(** The volumes of the calls of a sequence that trigger, in order. *)
Fixpoint triggering_volumes (calls : list (R * R)) (s : detector) : list R :=
  match calls with
  | [] => []
  | (t, v) :: rest =>
      (if decision t v s then [v] else [])
      ++ triggering_volumes rest (after_click t v s)
  end.

(** Two runs merged into one: the callbacks of the first followed by those of
    the second, ended as the second is. *)
Definition merged_run (first second : stream_run) : stream_run :=
  {| delivered := delivered first ++ delivered second;
     ending := ending second |}.

(** ** More of Python: [int()], sequence indexing, string repetition, strings *)

(** [int(x)] on a float: truncation towards zero. *)
Definition py_int (x : R) : Z :=
  if Rle_dec 0 x then Int_part x else (- Int_part (- x))%Z.

(** [l[i]] on a tuple: indices from [-len(l)] to [len(l) - 1] are valid, the
    negative ones counting from the end; [None] stands for [IndexError]. *)
Definition py_getitem {A : Type} (l : list A) (i : Z) : option A :=
  let n := Z.of_nat (length l) in
  if (0 <=? i)%Z && (i <? n)%Z then nth_error l (Z.to_nat i)
  else if (- n <=? i)%Z && (i <? 0)%Z then nth_error l (Z.to_nat (n + i))
  else None.

(** [c * n] for a one-character string [c]: [n] copies, none when [n <= 0]. *)
Definition py_repeat {A : Type} (c : A) (n : Z) : list A := repeat c (Z.to_nat n).

(** [str.lower()] on ASCII text. *)
Definition lower_char (c : ascii) : ascii :=
  if Ascii.leb "A" c && Ascii.leb c "Z"
  then ascii_of_N (N_of_ascii c + 32)
  else c.

Fixpoint lower (s : string) : string :=
  match s with
  | EmptyString => EmptyString
  | String c rest => String (lower_char c) (lower rest)
  end.

(** [keyword in text]: [keyword] occurs in [text] as a contiguous substring. *)
Fixpoint contains (keyword text : string) : bool :=
  String.prefix keyword text
  || match text with
     | EmptyString => false
     | String _ rest => contains keyword rest
     end.

(** ** The console front end *)

(** A cell of the level meter: the full block and the light shade. *)
Inductive cell : Type := Filled | Hollow.

Inductive prompt : Type :=
| DeviceNumberPrompt
| ChoicePrompt
| PressEnterPrompt
| DurationPrompt
| SensitivityPrompt.

(** The lines printed by [setup_audio], [click_mouse], [test_audio_levels]
    and [main]. *)
Inductive console_text : Type :=
| AvailableDevices
| DeviceLine (i : Z) (device_name : string) (inputs : Z) (rate : R)
| FoundPotential (device_name : string)
| CouldntAutoDetect
| PleaseLook
| InvalidInputDefault
| UsingDevice (device_name : string)
| AdjustingRate (old new : Z)
| ClickLine (volume : R)
| ClickErrorLine (e : string)
| TestingLevels (duration : Z)
| PlayYourGuitar
| Meter (volume : R) (bar : list cell) (threshold_pos : Z)
| TestComplete
| TestFailed (e : string)
| Title
| Intro
| BlankLine
| SetupFailed (e : string)
| InstallHint
| MenuHeader
| CurrentSensitivity (threshold : R)
| MenuOption (n : nat)
| TipsHeader
| TipLine (n : nat)
| InvalidNumber
| InvalidChoice
| Goodbye.

(** What the program does on the console and to the detector: an effect of a
    detector method, a printed line, or a call of [input(prompt)]. *)
Inductive event : Type :=
| Detector (e : effect)
| Console (t : console_text)
| Input (p : prompt).

Definition IO (A : Type) : Type := detector -> outcome A * detector * list event.

Definition io_ret {A : Type} (a : A) : IO A := fun s => (Returned a, s, []).

Definition io_bind {A B : Type} (m : IO A) (k : A -> IO B) : IO B :=
  fun s =>
    match m s with
    | (Returned a, s1, w1) =>
        match k a s1 with (r, s2, w2) => (r, s2, w1 ++ w2) end
    | (Raised e, s1, w1) => (Raised e, s1, w1)
    end.

Notation "'let*' x ':=' m 'in' k" := (io_bind m (fun x => k))
  (at level 10, x name, m at level 100, k at level 200).
Notation "m >> k" := (io_bind m (fun _ => k))
  (at level 62, right associativity).

(** A detector method run from the front end. *)
Definition lift {A : Type} (m : M A) : IO A :=
  fun s => match m s with (r, s1, w) => (r, s1, map Detector w) end.

Definition io_get : IO detector := fun s => (Returned s, s, []).
Definition say (t : console_text) : IO unit := fun s => (Returned tt, s, [Console t]).
Definition ask (p : prompt) : IO unit := fun s => (Returned tt, s, [Input p]).
Definition io_raise {A : Type} (e : exn) : IO A := fun s => (Raised e, s, []).

(** [try: body / except Exception as e: handler e]: [KeyboardInterrupt] is
    not an [Exception] and passes through. *)
Definition catch_Exception {A : Type} (body : IO A) (handler : string -> IO A) : IO A :=
  fun s =>
    match body s with
    | (Returned a, s1, w1) => (Returned a, s1, w1)
    | (Raised (Exception msg), s1, w1) =>
        match handler msg s1 with (r, s2, w2) => (r, s2, w1 ++ w2) end
    | (Raised KeyboardInterrupt, s1, w1) => (Raised KeyboardInterrupt, s1, w1)
    end.

(** [click_mouse(volume)], given what [pyautogui.click()] does: it returns
    ([None]) or raises. *)
Definition click_mouse (pyautogui_click : option exn) (volume : R) : IO unit :=
  catch_Exception
    (match pyautogui_click with
     | None => io_ret tt
     | Some e => io_raise e
     end >>
     say (ClickLine volume))
    (fun e => say (ClickErrorLine e)).

(** [test_callback(indata, frames, time, status)], the callback local to
    [test_audio_levels]. *)
Definition test_callback (c : callback) : IO unit :=
  let audio_data :=
    if ndim_gt_1 (indata c) then column0 (indata c) else flatten (indata c) in
  let* volume := lift (calculate_volume audio_data) in
  let bar_length := py_int (volume * 50) in
  let bar := py_repeat Filled bar_length ++ py_repeat Hollow (50 - bar_length) in
  let* s := io_get in
  let threshold_pos := py_int (THRESHOLD s * 50) in
  say (Meter volume bar threshold_pos).

(** What the backend and the user do during one [test_audio_levels]: the
    stream fails to open, or it opens, delivers callbacks, and the sleep is
    interrupted or runs to its end ([None]). *)
Record level_test : Type := mk_level_test {
  test_open_error : option string;
  test_delivered : list callback;
  test_interrupt : option exn
}.

Fixpoint test_deliver (cs : list callback) : IO unit :=
  match cs with
  | [] => io_ret tt
  | c :: rest => test_callback c >> test_deliver rest
  end.

(** [time.sleep(duration)]: a negative duration raises [ValueError]. *)
Definition sleep (duration : Z) (interrupt : option exn) : IO unit :=
  if (duration <? 0)%Z
  then io_raise (Exception "sleep length must be non-negative")
  else match interrupt with
       | None => io_ret tt
       | Some e => io_raise e
       end.

(** [test_audio_levels(duration)]. *)
Definition test_audio_levels (duration : Z) (t : level_test) : IO unit :=
  say (TestingLevels duration) >>
  say PlayYourGuitar >>
  catch_Exception
    (match test_open_error t with
     | Some msg => io_raise (Exception msg)
     | None => io_ret tt
     end >>
     test_deliver (test_delivered t) >>
     sleep duration (test_interrupt t) >>
     say TestComplete)
    (fun e => say (TestFailed e)).

(** ** Construction: [setup_audio] and [__init__] *)

(** An entry of [sd.query_devices()]. *)
Record device : Type := mk_device {
  name : string;
  max_input_channels : Z;
  default_samplerate : R
}.

(** What [setup_audio] finds: the device list, the result of
    [int(input(...))] ([None] for [ValueError]) and [sd.default.device[0]]. *)
Record audio_env : Type := mk_audio_env {
  devices : list device;
  typed_device : option Z;
  default_input : Z
}.

Definition keywords : list string :=
  ["rocksmith"; "usb"; "guitar"; "line"; "real"; "tone"; "cable"]%string.

(** [any(keyword in device_name_lower for keyword in [...])]. *)
Definition looks_like_rocksmith (d : device) : bool :=
  existsb (fun keyword => contains keyword (lower (name d))) keywords.

(** The [for] loop of [setup_audio] from index [i] on, with the value of
    [device_index] so far. *)
Fixpoint scan_devices (i : Z) (ds : list device) (device_index : option Z)
  : option Z * list event :=
  match ds with
  | [] => (device_index, [])
  | d :: rest =>
      if (0 <? max_input_channels d)%Z then
        let line :=
          Console (DeviceLine i (name d) (max_input_channels d)
                     (default_samplerate d)) in
        if looks_like_rocksmith d then
          match scan_devices (i + 1) rest (Some i) with
          | (found, w) => (found, line :: Console (FoundPotential (name d)) :: w)
          end
        else
          match scan_devices (i + 1) rest device_index with
          | (found, w) => (found, line :: w)
          end
      else scan_devices (i + 1) rest device_index
  end.

(** [setup_audio()]: the device index it stores and the device's preferred
    sample rate, or the exception it raises. *)
Definition setup_audio (env : audio_env) : outcome (Z * Z) * list event :=
  match scan_devices 0 (devices env) None with
  | (found, w_scan) =>
      let chosen :=
        match found with
        | Some i => (i, [])
        | None =>
            match typed_device env with
            | Some i =>
                (i, [Console CouldntAutoDetect; Console PleaseLook;
                     Input DeviceNumberPrompt])
            | None =>
                (default_input env,
                 [Console CouldntAutoDetect; Console PleaseLook;
                  Input DeviceNumberPrompt; Console InvalidInputDefault])
            end
        end in
      match py_getitem (devices env) (fst chosen) with
      | None =>
          (Raised (Exception "tuple index out of range"),
           Console AvailableDevices :: w_scan ++ snd chosen)
      | Some info =>
          let preferred_rate := py_int (default_samplerate info) in
          (Returned (fst chosen, preferred_rate),
           Console AvailableDevices :: w_scan ++ snd chosen
           ++ Console (UsingDevice (name info))
           :: (if Z.eqb preferred_rate 44100 then []
               else [Console (AdjustingRate 44100 preferred_rate)]))
      end
  end.

(** [GuitarMouseClicker()]: the fields set by [__init__], completed by
    [setup_audio]. *)
Definition construct (env : audio_env) : outcome detector * list event :=
  match setup_audio env with
  | (Returned (chosen, preferred_rate), w) => (Returned (init chosen preferred_rate), w)
  | (Raised e, w) => (Raised e, w)
  end.

(** ** [main] *)

(** One pass through the menu loop as the user and the backend drive it: the
    stripped choice line and, for the branch it selects, the run of the audio
    stream (choice 1), the duration line read as an integer ([None] when empty
    or not a number) and the level test (choice 2), or the sensitivity line
    read as a float ([None] for [ValueError], choice 3). *)
Record menu_round : Type := mk_round {
  choice : string;
  run : stream_run;
  typed_duration : option Z;
  test : level_test;
  typed_threshold : option R
}.

Definition show_menu : IO unit :=
  say MenuHeader >>
  (let* s := io_get in say (CurrentSensitivity (THRESHOLD s))) >>
  say (MenuOption 1) >> say (MenuOption 2) >> say (MenuOption 3) >>
  say (MenuOption 4) >>
  ask ChoicePrompt.

(** The [while True] loop of [main] over the rounds the user plays; when the
    input ends before a choice of 4, [input] raises [EOFError]. *)
Fixpoint menu_loop (rounds : list menu_round) : IO unit :=
  match rounds with
  | [] => show_menu >> io_raise (Exception "EOF when reading a line")
  | r :: rest =>
      show_menu >>
      if String.eqb (choice r) "1" then
        say TipsHeader >> say (TipLine 1) >> say (TipLine 2) >>
        say (TipLine 3) >> say BlankLine >>
        ask PressEnterPrompt >>
        lift (start (run r)) >>
        menu_loop rest
      else if String.eqb (choice r) "2" then
        ask DurationPrompt >>
        (let duration :=
           match typed_duration r with Some d => d | None => 10%Z end in
         test_audio_levels duration (test r)) >>
        menu_loop rest
      else if String.eqb (choice r) "3" then
        ask SensitivityPrompt >>
        match typed_threshold r with
        | Some new_threshold => lift (adjust_sensitivity new_threshold)
        | None => say InvalidNumber
        end >>
        menu_loop rest
      else if String.eqb (choice r) "4" then io_ret tt
      else say InvalidChoice >> menu_loop rest
  end.

(** [main()]: its result and everything it does on the console. *)
Definition main (env : audio_env) (rounds : list menu_round)
  : outcome unit * list event :=
  let banner := [Console Title; Console Intro; Console BlankLine] in
  match construct env with
  | (Returned clicker, w) =>
      match (menu_loop rounds >> say Goodbye) clicker with
      | (r, _, w') => (r, banner ++ w ++ w')
      end
  | (Raised (Exception e), w) =>
      (Returned tt, banner ++ w ++ [Console (SetupFailed e); Console InstallHint])
  | (Raised KeyboardInterrupt, w) => (Raised KeyboardInterrupt, banner ++ w)
  end.

(** ** Views of the front end used in the statements *)

Definition io_result {A : Type} (x : outcome A * detector * list event) : outcome A :=
  fst (fst x).
Definition io_state {A : Type} (x : outcome A * detector * list event) : detector :=
  snd (fst x).
Definition io_events {A : Type} (x : outcome A * detector * list event) : list event :=
  snd x.

(** The bar of the level meter for a volume, and the line [test_callback]
    prints for a callback. *)
Definition meter_bar (volume : R) : list cell :=
  py_repeat Filled (py_int (volume * 50))
  ++ py_repeat Hollow (50 - py_int (volume * 50)).

Definition meter_line (c : callback) (s : detector) : console_text :=
  Meter (computed_volume (channel_samples (indata c)))
    (meter_bar (computed_volume (channel_samples (indata c))))
    (py_int (THRESHOLD s * 50)).

(** A device the loop of [setup_audio] selects: it has input channels and its
    lowercased name contains a keyword. *)
Definition is_candidate (d : device) : bool :=
  (0 <? max_input_channels d)%Z && looks_like_rocksmith d.

(** The index [setup_audio] looks up when no device is selected by name. *)
Definition manual_choice (env : audio_env) : Z :=
  match typed_device env with
  | Some i => i
  | None => default_input env
  end.

(** The duration a round of choice 2 passes to [test_audio_levels]. *)
Definition round_duration (r : menu_round) : Z :=
  match typed_duration r with Some d => d | None => 10%Z end.

(** A round in which Ctrl+C interrupts the sleep of a level test. *)
Definition interrupted_test (r : menu_round) : Prop :=
  choice r = "2"%string
  /\ test_open_error (test r) = None
  /\ (0 <= round_duration r)%Z
  /\ test_interrupt (test r) = Some KeyboardInterrupt.

(** A device list for the examples: an output, a Rocksmith cable and a
    microphone. *)
Definition example_devices : list device :=
  [ {| name := "Speakers"; max_input_channels := 0; default_samplerate := 48000 |};
    {| name := "Rocksmith USB Guitar Adapter"; max_input_channels := 1;
       default_samplerate := 48000 |};
    {| name := "Microphone Array"; max_input_channels := 2;
       default_samplerate := 44100 |} ].

(** A device list without a keyword in any input device's name. *)
Definition plain_devices : list device :=
  [ {| name := "Speakers"; max_input_channels := 0; default_samplerate := 48000 |};
    {| name := "Microphone Array"; max_input_channels := 2;
       default_samplerate := 44100 |} ].

(** What [show_menu] prints and asks. *)
Definition menu_events (s : detector) : list event :=
  [Console MenuHeader; Console (CurrentSensitivity (THRESHOLD s));
   Console (MenuOption 1); Console (MenuOption 2); Console (MenuOption 3);
   Console (MenuOption 4); Input ChoicePrompt].

(** One pass through the body of the menu loop; the result tells whether the
    loop goes on ([false] after the [break] of choice 4). *)
Definition play (r : menu_round) : IO bool :=
  show_menu >>
  if String.eqb (choice r) "1" then
    say TipsHeader >> say (TipLine 1) >> say (TipLine 2) >>
    say (TipLine 3) >> say BlankLine >>
    ask PressEnterPrompt >>
    lift (start (run r)) >>
    io_ret true
  else if String.eqb (choice r) "2" then
    ask DurationPrompt >>
    test_audio_levels (round_duration r) (test r) >>
    io_ret true
  else if String.eqb (choice r) "3" then
    ask SensitivityPrompt >>
    match typed_threshold r with
    | Some new_threshold => lift (adjust_sensitivity new_threshold)
    | None => say InvalidNumber
    end >>
    io_ret true
  else if String.eqb (choice r) "4" then io_ret false
  else say InvalidChoice >> io_ret true.

(** A round after which the menu is shown again: any choice other than 4,
    except a level test interrupted by Ctrl+C. *)
Definition continues (r : menu_round) : Prop :=
  choice r <> "4"%string /\ ~ interrupted_test r.

(** The state of a detector between two method calls of a sequential caller:
    idle, a bounded history, a threshold in the range [adjust_sensitivity]
    enforces. *)
Definition at_rest (s : detector) : Prop :=
  is_running s = false
  /\ history_invariant s
  /\ 0.001 <= THRESHOLD s <= 1.

(** The fields no method assigns after construction. *)
Definition same_setup (s0 s : detector) : Prop :=
  CHUNK s = CHUNK s0 /\ CHANNELS s = CHANNELS s0 /\ RATE s = RATE s0
  /\ DEBOUNCE_TIME s = DEBOUNCE_TIME s0 /\ WINDOW_SIZE s = WINDOW_SIZE s0
  /\ device_index s = device_index s0.

(** Rounds for the examples. *)
Definition round_of (c : string) : menu_round :=
  {| choice := c; run := first_run; typed_duration := None;
     test := {| test_open_error := None; test_delivered := [];
                test_interrupt := None |};
     typed_threshold := Some 5 |}.

Definition interrupted_round : menu_round :=
  {| choice := "2"; run := first_run; typed_duration := Some 10%Z;
     test := {| test_open_error := None; test_delivered := [];
                test_interrupt := Some KeyboardInterrupt |};
     typed_threshold := None |}.

(** * Properties *)

(** ** Evaluation lemmas *)

Lemma Rgtb_true_iff (a b : R) : Rgtb a b = true <-> a > b.
Proof.
  unfold Rgtb. destruct (Rgt_dec a b) as [Hgt | Hngt]; split; intro H;
    try assumption; try reflexivity; try discriminate.
  contradiction.
Qed.

Lemma Rgtb_false_iff (a b : R) : Rgtb a b = false <-> a <= b.
Proof.
  unfold Rgtb. destruct (Rgt_dec a b) as [Hgt | Hngt]; split; intro H;
    try reflexivity; try discriminate; lra.
Qed.

Lemma Rltb_true_iff (a b : R) : Rltb a b = true <-> a < b.
Proof.
  unfold Rltb. destruct (Rlt_dec a b) as [Hlt | Hnlt]; split; intro H;
    try assumption; try reflexivity; try discriminate.
  contradiction.
Qed.

Lemma Rltb_false_iff (a b : R) : Rltb a b = false <-> b <= a.
Proof.
  unfold Rltb. destruct (Rlt_dec a b) as [Hlt | Hnlt]; split; intro H;
    try reflexivity; try discriminate; lra.
Qed.

(** [should_click] unfolded: it always returns, prints nothing, records the
    volume, and moves [last_click_time] exactly when it returns [True]. *)
Lemma should_click_unfold (now v : R) (s : detector) :
  should_click now v s =
  if decision now v s
  then (Returned true, set_last_click_time now (recorded v s), [])
  else (Returned false, recorded v s, []).
Proof.
  unfold should_click, decision, recorded, bind, modify, get, ret. simpl.
  destruct (Rgtb v (THRESHOLD s) && Rgtb (now - last_click_time s) (DEBOUNCE_TIME s));
    reflexivity.
Qed.

Lemma decision_true_iff (now v : R) (s : detector) :
  decision now v s = true <->
  v > THRESHOLD s /\ now - last_click_time s > DEBOUNCE_TIME s.
Proof.
  unfold decision. rewrite andb_true_iff, !Rgtb_true_iff. tauto.
Qed.

(** ** The decision rule *)

(** C1. Whatever the detector state, the volume and the time read from the
    clock, [should_click] returns a boolean, and that boolean is [True]
    exactly when the volume is strictly above [THRESHOLD] and the time since
    [last_click_time] is strictly above [DEBOUNCE_TIME]. A volume equal to the
    threshold and an elapsed time equal to the debounce time do not trigger.
    On [True] the new [last_click_time] is the clock value; on [False] it is
    left as it was. *)
Theorem should_click_decision_rule (s : detector) (now v : R) :
  exists b : bool,
    result_of (should_click now v s) = Returned b
    /\ (b = true <->
        v > THRESHOLD s /\ now - last_click_time s > DEBOUNCE_TIME s)
    /\ (v = THRESHOLD s -> b = false)
    /\ (now - last_click_time s = DEBOUNCE_TIME s -> b = false)
    /\ (b = true -> last_click_time (state_of (should_click now v s)) = now)
    /\ (b = false ->
        last_click_time (state_of (should_click now v s)) = last_click_time s).
Proof.
  exists (decision now v s).
  rewrite should_click_unfold.
  destruct (decision now v s) eqn:Hd; simpl.
  - apply decision_true_iff in Hd. destruct Hd as [Hv Ht].
    repeat split; try tauto; intros; lra.
  - assert (Hno : ~ (v > THRESHOLD s /\ now - last_click_time s > DEBOUNCE_TIME s)).
    { intro Hboth. apply decision_true_iff in Hboth. congruence. }
    repeat split; try reflexivity; try discriminate; try tauto.
Qed.

Lemma decision_false_iff (now v : R) (s : detector) :
  decision now v s = false <->
  v <= THRESHOLD s \/ now - last_click_time s <= DEBOUNCE_TIME s.
Proof.
  unfold decision. rewrite andb_false_iff, !Rgtb_false_iff. tauto.
Qed.

(** Settles a call of [should_click] on concrete numbers. *)
Ltac settle_click :=
  rewrite ?should_click_unfold;
  match goal with
  | |- context [decision ?t ?v ?s] =>
      let Hd := fresh "Hd" in
      destruct (decision t v s) eqn:Hd;
      [ apply decision_true_iff in Hd | apply decision_false_iff in Hd ];
      simpl in *; try reflexivity; try (exfalso; lra)
  end.

(** ** The first call *)

(** On a freshly constructed detector (threshold 0.01, debounce 0.2), a first
    block of volume 0.02 at clock value 0.0 does not trigger: the elapsed time
    is measured from the initial [last_click_time = 0]. *)
Lemma first_call_at_clock_zero_is_debounced :
  never_triggered (init 0 44100)
  /\ 0.02 > THRESHOLD (init 0 44100)
  /\ result_of (should_click 0 0.02 (init 0 44100)) = Returned false
  /\ ~ first_call_triggers_at (init 0 44100) 0 0.02.
Proof.
  assert (Hres : result_of (should_click 0 0.02 (init 0 44100)) = Returned false).
  { settle_click. }
  repeat split.
  - simpl. lra.
  - exact Hres.
  - intro Hclaim. unfold first_call_triggers_at in Hclaim.
    rewrite Hres in Hclaim.
    assert (Hnever : never_triggered (init 0 44100)) by reflexivity.
    assert (Hvol : 0.02 > THRESHOLD (init 0 44100)) by (simpl; lra).
    specialize (Hclaim Hnever Hvol). discriminate.
Qed.

(** C2 (amended). On a detector that has never triggered, a call whose volume
    is strictly above the threshold returns [True] exactly when the clock
    value is strictly above [DEBOUNCE_TIME] (as every Unix timestamp is), and
    [False] otherwise. *)
Theorem first_call_triggers_after_debounce_time (s : detector) (now v : R) :
  never_triggered s -> v > THRESHOLD s ->
  (now > DEBOUNCE_TIME s ->
   result_of (should_click now v s) = Returned true)
  /\ (now <= DEBOUNCE_TIME s ->
      result_of (should_click now v s) = Returned false).
Proof.
  unfold never_triggered. intros Hnever Hv.
  split; intro Hnow; settle_click; rewrite Hnever in *; lra.
Qed.

Lemma first_call_triggers_after_debounce_time_witness :
  never_triggered (init 0 44100)
  /\ 0.02 > THRESHOLD (init 0 44100)
  /\ 1700000000 > DEBOUNCE_TIME (init 0 44100)
  /\ result_of (should_click 1700000000 0.02 (init 0 44100)) = Returned true.
Proof.
  assert (Hnever : never_triggered (init 0 44100)) by reflexivity.
  assert (Hvol : 0.02 > THRESHOLD (init 0 44100)) by (simpl; lra).
  assert (Hnow : 1700000000 > DEBOUNCE_TIME (init 0 44100)) by (simpl; lra).
  repeat split; try assumption.
  apply (first_call_triggers_after_debounce_time
           (init 0 44100) 1700000000 0.02 Hnever Hvol).
  exact Hnow.
Defined.

(** ** Sequences of calls and the debounce law *)

Lemma after_click_eq (t v : R) (s : detector) :
  after_click t v s =
  if decision t v s then set_last_click_time t (recorded v s) else recorded v s.
Proof.
  unfold after_click. rewrite should_click_unfold.
  destruct (decision t v s); reflexivity.
Qed.

Lemma after_click_THRESHOLD (t v : R) (s : detector) :
  THRESHOLD (after_click t v s) = THRESHOLD s.
Proof. rewrite after_click_eq. destruct (decision t v s); reflexivity. Qed.

Lemma after_click_DEBOUNCE_TIME (t v : R) (s : detector) :
  DEBOUNCE_TIME (after_click t v s) = DEBOUNCE_TIME s.
Proof. rewrite after_click_eq. destruct (decision t v s); reflexivity. Qed.

Lemma after_click_last_click_time (t v : R) (s : detector) :
  last_click_time (after_click t v s) =
  if decision t v s then t else last_click_time s.
Proof. rewrite after_click_eq. destruct (decision t v s); reflexivity. Qed.

(** A sequence of calls always returns, with one decision per call. *)
Lemma click_sequence_unfold (calls : list (R * R)) (s : detector) :
  click_sequence calls s = (Returned (decisions calls s), after_calls calls s, []).
Proof.
  revert s. induction calls as [| [t v] rest IH]; intro s.
  - reflexivity.
  - simpl. unfold bind at 1. unfold after_click.
    rewrite should_click_unfold.
    destruct (decision t v s); simpl; unfold bind; rewrite IH; reflexivity.
Qed.

Lemma decisions_length (calls : list (R * R)) (s : detector) :
  length (decisions calls s) = length calls.
Proof.
  revert s. induction calls as [| [t v] rest IH]; intro s; simpl.
  - reflexivity.
  - rewrite IH. reflexivity.
Qed.

(** While the clock stays at or before [t0 + DEBOUNCE_TIME] and the last click
    is not older than [t0], nothing triggers. *)
Lemma decisions_inside_window (t0 : R) (calls : list (R * R)) :
  forall (s : detector) (j : nat) (t v : R),
    Forall (Rlt t0) (map fst calls) ->
    t0 <= last_click_time s ->
    nth_error calls j = Some (t, v) ->
    t <= t0 + DEBOUNCE_TIME s ->
    nth_error (decisions calls s) j = Some false.
Proof.
  induction calls as [| [t' v'] rest IH]; intros s j t v Hlater Hlast Hj Hin.
  - destruct j; discriminate.
  - simpl in Hlater. destruct j as [| j'].
    + simpl in Hj. injection Hj as -> ->. simpl. f_equal.
      apply decision_false_iff. right. lra.
    + simpl in Hj. simpl.
      apply (IH (after_click t' v' s) j' t v).
      * apply (Forall_inv_tail Hlater).
      * rewrite after_click_last_click_time.
        pose proof (Forall_inv Hlater) as Hfirst. simpl in Hfirst.
        destruct (decision t' v' s); lra.
      * exact Hj.
      * rewrite after_click_DEBOUNCE_TIME. exact Hin.
Qed.

(** When no earlier call of the sequence triggers, a call beyond the debounce
    time with a volume above the threshold does. *)
Lemma decisions_after_quiet_prefix (calls : list (R * R)) :
  forall (s : detector) (j : nat) (t v : R),
    nth_error calls j = Some (t, v) ->
    (forall k, (k < j)%nat -> nth_error (decisions calls s) k = Some false) ->
    t - last_click_time s > DEBOUNCE_TIME s ->
    v > THRESHOLD s ->
    nth_error (decisions calls s) j = Some true.
Proof.
  induction calls as [| [t' v'] rest IH]; intros s j t v Hj Hquiet Ht Hv.
  - destruct j; discriminate.
  - destruct j as [| j'].
    + simpl in Hj. injection Hj as -> ->. simpl. f_equal.
      apply decision_true_iff. split; assumption.
    + simpl in Hj. simpl.
      assert (Hfirst : decision t' v' s = false).
      { specialize (Hquiet 0%nat (Nat.lt_0_succ j')). simpl in Hquiet.
        congruence. }
      apply (IH (after_click t' v' s) j' t v).
      * exact Hj.
      * intros k Hk. apply (Hquiet (S k)). lia.
      * rewrite after_click_last_click_time, after_click_DEBOUNCE_TIME, Hfirst.
        exact Ht.
      * rewrite after_click_THRESHOLD. exact Hv.
Qed.

(** C3. Along any sequence of calls with strictly increasing clock values, in
    which the call at index [i], made at time [t0], returns [True]: a later
    call at a time up to and including [t0 + DEBOUNCE_TIME] returns [False]
    whatever its volume, and a later call at [t0 + DEBOUNCE_TIME + eps], with
    [eps > 0] and a volume strictly above the threshold, returns [True] when
    no call between the two triggered. *)
Theorem debounce_law (s : detector) (calls : list (R * R)) :
  StronglySorted Rlt (map fst calls) ->
  exists results : list bool,
    result_of (click_sequence calls s) = Returned results
    /\ length results = length calls
    /\ forall (i j : nat) (t0 v0 t v : R),
         (i < j)%nat ->
         nth_error calls i = Some (t0, v0) ->
         nth_error calls j = Some (t, v) ->
         nth_error results i = Some true ->
         (t <= t0 + DEBOUNCE_TIME s -> nth_error results j = Some false)
         /\ (forall eps : R,
               eps > 0 -> t = t0 + DEBOUNCE_TIME s + eps ->
               v > THRESHOLD s ->
               (forall k, (i < k < j)%nat -> nth_error results k = Some false) ->
               nth_error results j = Some true).
Proof.
  intro Hsorted. exists (decisions calls s).
  rewrite click_sequence_unfold. split; [reflexivity |].
  split; [apply decisions_length |].
  revert s Hsorted.
  induction calls as [| [t' v'] rest IH]; intros s Hsorted i j t0 v0 t v Hij Hi Hj Htrig.
  - destruct i; discriminate.
  - simpl in Hsorted. apply StronglySorted_inv in Hsorted.
    destruct Hsorted as [Hrest Hlater].
    destruct j as [| j']; [lia |].
    simpl in Hj. simpl.
    destruct i as [| i'].
    + simpl in Hi. injection Hi as -> ->.
      simpl in Htrig. injection Htrig as Htrig.
      assert (Hlast : last_click_time (after_click t0 v0 s) = t0).
      { rewrite after_click_last_click_time, Htrig. reflexivity. }
      split.
      * intro Hin.
        apply (decisions_inside_window t0 rest (after_click t0 v0 s) j' t v).
        -- exact Hlater.
        -- lra.
        -- exact Hj.
        -- rewrite after_click_DEBOUNCE_TIME. exact Hin.
      * intros eps Heps Ht Hv Hquiet.
        apply (decisions_after_quiet_prefix rest (after_click t0 v0 s) j' t v).
        -- exact Hj.
        -- intros k Hk. apply (Hquiet (S k)). lia.
        -- rewrite Hlast, after_click_DEBOUNCE_TIME. lra.
        -- rewrite after_click_THRESHOLD. exact Hv.
    + simpl in Hi. simpl in Htrig.
      assert (Hij' : (i' < j')%nat) by lia.
      destruct (IH (after_click t' v' s) Hrest i' j' t0 v0 t v Hij' Hi Hj Htrig)
        as [Hin Hout].
      rewrite after_click_DEBOUNCE_TIME in Hin, Hout.
      rewrite after_click_THRESHOLD in Hout.
      split.
      * exact Hin.
      * intros eps Heps Ht Hv Hquiet.
        apply (Hout eps Heps Ht Hv).
        intros k Hk. apply (Hquiet (S k)). lia.
Qed.

(** The blocks of a short session: clock values 1000.0, 1000.05 and 1000.25
    with volumes 0.02, 0.05 and 0.015. *)
Lemma debounce_law_witness :
  StronglySorted Rlt (map fst [(1000, 0.02); (1000.05, 0.05); (1000.25, 0.015)])
  /\ exists results : list bool,
    result_of
      (click_sequence [(1000, 0.02); (1000.05, 0.05); (1000.25, 0.015)]
         (init 0 44100)) = Returned results
    /\ length results = 3%nat
    /\ forall (i j : nat) (t0 v0 t v : R),
         (i < j)%nat ->
         nth_error [(1000, 0.02); (1000.05, 0.05); (1000.25, 0.015)] i
           = Some (t0, v0) ->
         nth_error [(1000, 0.02); (1000.05, 0.05); (1000.25, 0.015)] j
           = Some (t, v) ->
         nth_error results i = Some true ->
         (t <= t0 + 0.2 -> nth_error results j = Some false)
         /\ (forall eps : R,
               eps > 0 -> t = t0 + 0.2 + eps ->
               v > 0.01 ->
               (forall k, (i < k < j)%nat -> nth_error results k = Some false) ->
               nth_error results j = Some true).
Proof.
  assert (Hsorted : StronglySorted Rlt
            (map fst [(1000, 0.02); (1000.05, 0.05); (1000.25, 0.015)])).
  { simpl. repeat constructor; lra. }
  split; [exact Hsorted |].
  apply (debounce_law (init 0 44100)
           [(1000, 0.02); (1000.05, 0.05); (1000.25, 0.015)] Hsorted).
Defined.

(** ** The volume estimator *)

Lemma calculate_volume_unfold (audio_data : list R) (s : detector) :
  calculate_volume audio_data s = (Returned (computed_volume audio_data), s, []).
Proof.
  unfold calculate_volume, computed_volume.
  destruct (Nat.eqb (length audio_data) 0); reflexivity.
Qed.

Lemma fold_left_Rplus_shift (l : list R) (a : R) :
  fold_left Rplus l a = a + np_sum l.
Proof.
  revert a. induction l as [| x l IH]; intro a; simpl.
  - lra.
  - rewrite IH. unfold np_sum. lra.
Qed.

Lemma mean_np_mean (l : list R) : mean l = np_mean l.
Proof.
  unfold mean, np_mean. rewrite fold_left_Rplus_shift. f_equal. lra.
Qed.

Lemma squares_np_square (l : list R) : map (fun x => x ^ 2) l = np_square l.
Proof.
  unfold np_square. apply map_ext. intro x. simpl. lra.
Qed.

Lemma np_sum_zeros (l : list R) : Forall (fun x => x = 0) l -> np_sum l = 0.
Proof.
  induction 1 as [| x l Hx _ IH]; unfold np_sum in *; simpl.
  - reflexivity.
  - rewrite IH, Hx. lra.
Qed.

Lemma np_square_zeros (l : list R) :
  Forall (fun x => x = 0) l -> Forall (fun x => x = 0) (np_square l).
Proof.
  induction 1 as [| x l Hx _ IH]; simpl; constructor.
  - rewrite Hx. lra.
  - exact IH.
Qed.

Lemma computed_volume_nonneg (l : list R) : 0 <= computed_volume l.
Proof.
  unfold computed_volume. destruct (Nat.eqb (length l) 0).
  - lra.
  - apply sqrt_pos.
Qed.

Lemma computed_volume_zeros (l : list R) :
  Forall (fun x => x = 0) l -> computed_volume l = 0.
Proof.
  intro Hz. unfold computed_volume. destruct (Nat.eqb (length l) 0).
  - reflexivity.
  - unfold np_mean. rewrite (np_sum_zeros _ (np_square_zeros l Hz)).
    unfold Rdiv. rewrite Rmult_0_l. apply sqrt_0.
Qed.

Lemma channel_samples_first_channel (a : ndarray) :
  channel_samples a = first_channel a.
Proof. destruct a; reflexivity. Qed.

(** What one callback does while the stop signal is clear. *)
Lemma audio_callback_unfold (c : callback) (s : detector) :
  stop_event s = false ->
  audio_callback c s =
  (Returned tt,
   after_click (fst (callback_call c)) (snd (callback_call c)) s,
   match status c with Some st => [Print (AudioStatus st)] | None => [] end
   ++ if decision (fst (callback_call c)) (snd (callback_call c)) s
      then [SpawnClick (snd (callback_call c))] else []).
Proof.
  intro Hstop. unfold audio_callback, callback_call, channel_samples. simpl.
  unfold bind at 1.
  assert (Hstatus :
    match status c with Some st => print (AudioStatus st) | None => ret tt end s
    = (Returned tt, s,
       match status c with Some st => [Print (AudioStatus st)] | None => [] end)).
  { destruct (status c); reflexivity. }
  rewrite Hstatus. unfold bind at 1. unfold get at 1. rewrite Hstop.
  unfold bind at 1. rewrite calculate_volume_unfold.
  unfold bind at 1. unfold after_click. rewrite should_click_unfold.
  destruct (decision _ _ s); simpl; reflexivity.
Qed.

(** C4. [calculate_volume] returns a number without touching the detector or
    printing; for a non-empty block that number is the root mean square of
    the samples; it is never negative, it is 0 for an all-zero block and 0
    for an empty block. The block the callback passes is the first channel
    of the delivered array, so the volume fed to [should_click] is the root
    mean square of the first channel. *)
Theorem calculate_volume_is_rms (s : detector) (audio_data : list R) :
  (exists vol : R,
     calculate_volume audio_data s = (Returned vol, s, [])
     /\ (audio_data <> [] -> vol = rms audio_data)
     /\ 0 <= vol
     /\ (Forall (fun x => x = 0) audio_data -> vol = 0)
     /\ (audio_data = [] -> vol = 0))
  /\ (forall c : callback,
        channel_samples (indata c) = first_channel (indata c)
        /\ (stop_event s = false ->
            state_of (audio_callback c s)
            = state_of ((vol <- calculate_volume (first_channel (indata c)) ;;
                         should_click (clock c) vol) s))).
Proof.
  split.
  - exists (computed_volume audio_data).
    split; [apply calculate_volume_unfold |].
    split.
    { intro Hne. unfold rms, computed_volume.
      destruct audio_data as [| x l]; [contradiction |].
      rewrite mean_np_mean, squares_np_square. reflexivity. }
    split; [apply computed_volume_nonneg |].
    split; [apply computed_volume_zeros |].
    intro Hnil. rewrite Hnil. reflexivity.
  - intro c. split; [apply channel_samples_first_channel |].
    intro Hstop. rewrite (audio_callback_unfold c s Hstop).
    unfold callback_call. simpl.
    rewrite channel_samples_first_channel.
    unfold bind. rewrite calculate_volume_unfold.
    unfold after_click, state_of.
    destruct (should_click (clock c) (computed_volume (first_channel (indata c))) s)
      as [[r s'] w]. rewrite app_nil_l. reflexivity.
Qed.

(** ** The volume history *)

Lemma lastn_all (n : nat) (l : list R) :
  (length l <= n)%nat -> lastn n l = l.
Proof.
  intro Hlen. unfold lastn.
  replace (length l - n)%nat with 0%nat by lia. reflexivity.
Qed.

Lemma lastn_length (n : nat) (l : list R) :
  (length (lastn n l) <= n)%nat.
Proof. unfold lastn. rewrite length_skipn. lia. Qed.

Lemma lastn_full_append (n : nat) (l : list R) (x : R) :
  (1 <= n)%nat -> length l = n -> lastn n (l ++ [x]) = tl l ++ [x].
Proof.
  intros Hn Hlen. unfold lastn. rewrite length_app. simpl.
  replace (length l + 1 - n)%nat with 1%nat by lia.
  destruct l as [| y l']; [simpl in Hlen; lia | reflexivity].
Qed.

(** Keeping the last [n] readings after each append is keeping the last [n]
    of everything appended. *)
Lemma lastn_append_lastn (n : nat) (l : list R) (x : R) :
  lastn n (lastn n l ++ [x]) = lastn n (l ++ [x]).
Proof.
  unfold lastn at 2.
  assert (Hk : (length l - n <= length l)%nat) by lia.
  remember (length l - n)%nat as k eqn:Ek.
  assert (Hsplit : skipn k l ++ [x] = skipn k (l ++ [x])).
  { rewrite skipn_app. replace (k - length l)%nat with 0%nat by lia.
    reflexivity. }
  rewrite Hsplit. unfold lastn. rewrite skipn_skipn, length_skipn.
  f_equal. rewrite length_app. simpl. lia.
Qed.

Lemma deque_append_maxlen (d : deque) (x : R) :
  maxlen (deque_append d x) = maxlen d.
Proof.
  unfold deque_append. destruct (maxlen d) eqn:Hm; [assumption |].
  destruct (Nat.ltb (length (items d)) (S n)); reflexivity.
Qed.

Lemma deque_append_items (d : deque) (x : R) :
  (1 <= maxlen d)%nat -> deque_bounded d ->
  items (deque_append d x) = lastn (maxlen d) (items d ++ [x]).
Proof.
  unfold deque_bounded, deque_append. intros Hpos Hb.
  destruct (maxlen d) as [| m] eqn:Hm; [lia |].
  destruct (Nat.ltb (length (items d)) (S m)) eqn:Hlt; simpl.
  - apply Nat.ltb_lt in Hlt. symmetry. apply lastn_all.
    rewrite length_app. simpl. lia.
  - apply Nat.ltb_ge in Hlt. symmetry. apply lastn_full_append; lia.
Qed.

Lemma deque_append_bounded (d : deque) (x : R) :
  deque_bounded d -> deque_bounded (deque_append d x).
Proof.
  intro Hb. destruct (Nat.eq_dec (maxlen d) 0) as [Hz | Hnz].
  - unfold deque_append. rewrite Hz. exact Hb.
  - unfold deque_bounded. rewrite deque_append_maxlen.
    rewrite deque_append_items by (try assumption; lia).
    apply lastn_length.
Qed.

Lemma after_click_volume_history (t v : R) (s : detector) :
  volume_history (after_click t v s) = deque_append (volume_history s) v.
Proof. rewrite after_click_eq. destruct (decision t v s); reflexivity. Qed.

Lemma after_click_WINDOW_SIZE (t v : R) (s : detector) :
  WINDOW_SIZE (after_click t v s) = WINDOW_SIZE s.
Proof. rewrite after_click_eq. destruct (decision t v s); reflexivity. Qed.

Lemma after_click_history_invariant (t v : R) (s : detector) :
  history_invariant s -> history_invariant (after_click t v s).
Proof.
  unfold history_invariant. intros [Hmax [Hpos Hb]].
  rewrite after_click_volume_history, after_click_WINDOW_SIZE,
    deque_append_maxlen.
  repeat split; try assumption. apply deque_append_bounded. exact Hb.
Qed.

Lemma after_click_items (t v : R) (s : detector) :
  history_invariant s ->
  items (volume_history (after_click t v s))
  = lastn (WINDOW_SIZE s) (items (volume_history s) ++ [v]).
Proof.
  intros [Hmax [Hpos Hb]]. rewrite after_click_volume_history, <- Hmax.
  apply deque_append_items; [lia | exact Hb].
Qed.

Lemma after_calls_history (calls : list (R * R)) :
  forall s : detector,
    history_invariant s ->
    history_invariant (after_calls calls s)
    /\ WINDOW_SIZE (after_calls calls s) = WINDOW_SIZE s
    /\ items (volume_history (after_calls calls s))
       = lastn (WINDOW_SIZE s) (items (volume_history s) ++ map snd calls).
Proof.
  induction calls as [| [t v] rest IH]; intros s Hinv.
  - simpl. rewrite app_nil_r.
    split; [exact Hinv |]. split; [reflexivity |].
    symmetry. apply lastn_all. destruct Hinv as [Hmax [_ Hb]].
    unfold deque_bounded in Hb. lia.
  - simpl.
    destruct (IH (after_click t v s) (after_click_history_invariant t v s Hinv))
      as [Hinv' [Hw Hitems]].
    rewrite after_click_WINDOW_SIZE in Hw, Hitems.
    split; [exact Hinv' |]. split; [exact Hw |].
    rewrite Hitems, (after_click_items t v s Hinv).
    clear. revert v. generalize (items (volume_history s)) as l.
    induction (map snd rest) as [| y ys IHys] using rev_ind; intros l v.
    + rewrite !app_nil_r. unfold lastn at 1.
      replace (length (lastn (WINDOW_SIZE s) (l ++ [v])) - WINDOW_SIZE s)%nat
        with 0%nat; [reflexivity |].
      pose proof (lastn_length (WINDOW_SIZE s) (l ++ [v])). lia.
    + rewrite !app_assoc, <- lastn_append_lastn, IHys, lastn_append_lastn.
      rewrite <- !app_assoc. reflexivity.
Qed.

Lemma decision_ignores_history (now v : R) (h : deque) (s : detector) :
  decision now v (set_volume_history h s) = decision now v s.
Proof. reflexivity. Qed.

(** C5. On a detector whose history is the deque of [WINDOW_SIZE >= 1]
    readings built by [__init__]: a call of [should_click] puts the current
    volume at the newest end of the history whether it triggers or not; the
    history then holds at most [WINDOW_SIZE] readings, namely the last
    [WINDOW_SIZE] of the old ones followed by the new one, so that a full
    history loses its oldest reading and nothing else; after any sequence
    of calls it holds the last [WINDOW_SIZE] volumes seen; and replacing the
    history by any other deque changes neither the returned decision nor
    the new [last_click_time]. *)
Theorem volume_history_is_fifo_window (s : detector) (now v : R) :
  history_invariant s ->
  history_invariant (state_of (should_click now v s))
  /\ (exists older : list R,
        items (volume_history (state_of (should_click now v s))) = older ++ [v])
  /\ (length (items (volume_history (state_of (should_click now v s))))
      <= WINDOW_SIZE s)%nat
  /\ items (volume_history (state_of (should_click now v s)))
     = lastn (WINDOW_SIZE s) (items (volume_history s) ++ [v])
  /\ ((length (items (volume_history s)) < WINDOW_SIZE s)%nat ->
      items (volume_history (state_of (should_click now v s)))
      = items (volume_history s) ++ [v])
  /\ (length (items (volume_history s)) = WINDOW_SIZE s ->
      items (volume_history (state_of (should_click now v s)))
      = tl (items (volume_history s)) ++ [v])
  /\ (forall calls : list (R * R),
        items (volume_history (state_of (click_sequence calls s)))
        = lastn (WINDOW_SIZE s) (items (volume_history s) ++ map snd calls)
        /\ (length (items (volume_history (state_of (click_sequence calls s))))
            <= WINDOW_SIZE s)%nat)
  /\ (forall h : deque,
        result_of (should_click now v (set_volume_history h s))
        = result_of (should_click now v s)
        /\ last_click_time (state_of (should_click now v (set_volume_history h s)))
           = last_click_time (state_of (should_click now v s))).
Proof.
  intro Hinv. fold (after_click now v s).
  pose proof (after_click_items now v s Hinv) as Hitems.
  destruct Hinv as [Hmax [Hpos Hb]].
  assert (Hinv : history_invariant s) by (repeat split; assumption).
  unfold deque_bounded in Hb. rewrite Hmax in Hb.
  assert (Hcases :
    (length (items (volume_history s)) < WINDOW_SIZE s)%nat
    \/ length (items (volume_history s)) = WINDOW_SIZE s) by lia.
  assert (Hunder : (length (items (volume_history s)) < WINDOW_SIZE s)%nat ->
                   items (volume_history (after_click now v s))
                   = items (volume_history s) ++ [v]).
  { intro Hlt. rewrite Hitems. apply lastn_all. rewrite length_app. simpl. lia. }
  assert (Hfull : length (items (volume_history s)) = WINDOW_SIZE s ->
                  items (volume_history (after_click now v s))
                  = tl (items (volume_history s)) ++ [v]).
  { intro Heq. rewrite Hitems. apply lastn_full_append; assumption. }
  split; [apply after_click_history_invariant; exact Hinv |].
  split.
  { destruct Hcases as [Hlt | Heq].
    - exists (items (volume_history s)). apply Hunder. exact Hlt.
    - exists (tl (items (volume_history s))). apply Hfull. exact Heq. }
  split; [rewrite Hitems; apply lastn_length |].
  split; [exact Hitems |].
  split; [exact Hunder |].
  split; [exact Hfull |].
  split.
  - intro calls. rewrite click_sequence_unfold. unfold state_of. simpl.
    destruct (after_calls_history calls s Hinv) as [_ [_ Hseq]].
    split; [exact Hseq |]. rewrite Hseq. apply lastn_length.
  - intro h. unfold after_click. rewrite !should_click_unfold.
    rewrite decision_ignores_history.
    destruct (decision now v s); split; reflexivity.
Qed.

Lemma init_history_invariant (d r : Z) : history_invariant (init d r).
Proof.
  unfold history_invariant, deque_bounded. simpl. repeat split; lia.
Qed.

Lemma volume_history_is_fifo_window_witness :
  history_invariant (init 0 44100)
  /\ items (volume_history (state_of (should_click 1000 0.02 (init 0 44100))))
     = [0.02].
Proof.
  assert (Hinv : history_invariant (init 0 44100)).
  { unfold history_invariant, deque_bounded. simpl. repeat split; lia. }
  split; [exact Hinv |].
  destruct (volume_history_is_fifo_window (init 0 44100) 1000 0.02 Hinv)
    as [_ [_ [_ [_ [Hunder _]]]]].
  apply Hunder. simpl. lia.
Defined.

(** ** Starting and stopping *)

Lemma after_click_stop_event (t v : R) (s : detector) :
  stop_event (after_click t v s) = stop_event s.
Proof. rewrite after_click_eq. destruct (decision t v s); reflexivity. Qed.

Lemma after_click_is_running (t v : R) (s : detector) :
  is_running (after_click t v s) = is_running s.
Proof. rewrite after_click_eq. destruct (decision t v s); reflexivity. Qed.

Lemma deliver_unfold (cs : list callback) :
  forall s : detector,
    stop_event s = false ->
    deliver cs s =
    (Returned tt, after_calls (map callback_call cs) s, deliver_effects cs s).
Proof.
  induction cs as [| c rest IH]; intros s Hstop.
  - reflexivity.
  - simpl. unfold bind. rewrite (audio_callback_unfold c s Hstop).
    rewrite IH by (rewrite after_click_stop_event; exact Hstop).
    unfold callback_effects, callback_call. simpl. reflexivity.
Qed.

Lemma start_prologue_unfold (s : detector) :
  start_prologue s =
  (Returned tt, started s,
   [Print (Listening (THRESHOLD s)); Print StrumHint; Print PressCtrlC]).
Proof. reflexivity. Qed.

Lemma stop_unfold (s : detector) :
  stop s = (Returned tt, stopped s, [Print Stopping; Print Stopped]).
Proof. reflexivity. Qed.

Lemma start_handler_unfold (e : exn) (s : detector) :
  start_handler e s = (Returned tt, s, handler_effects e).
Proof. destruct e; reflexivity. Qed.

(** A [start()] on an idle detector returns normally whatever ends the
    stream; the blocks are processed from the state the prologue leaves. *)
Lemma start_unfold (run : stream_run) (s : detector) :
  is_running s = false ->
  start run s =
  (Returned tt,
   stopped (after_calls (map callback_call (delivered run)) (started s)),
   [Print (Listening (THRESHOLD s)); Print StrumHint; Print PressCtrlC]
   ++ (deliver_effects (delivered run) (started s) ++ handler_effects (ending run))
   ++ [Print Stopping; Print Stopped]).
Proof.
  intro Hidle. unfold start. unfold bind at 1. unfold get at 1. rewrite Hidle.
  unfold bind at 1. rewrite start_prologue_unfold.
  unfold try_finally, try_except. unfold bind at 1.
  rewrite deliver_unfold by reflexivity.
  unfold raise. rewrite start_handler_unfold, stop_unfold.
  rewrite app_nil_r. reflexivity.
Qed.

Lemma computed_volume_single (x : R) : 0 <= x -> computed_volume [x] = x.
Proof.
  intro Hx. unfold computed_volume, np_mean, np_square, np_sum. simpl.
  replace ((x * x + 0) / 1) with (x * x) by lra.
  apply sqrt_square. exact Hx.
Qed.

Lemma after_first_run_eq :
  after_first_run
  = stopped (set_last_click_time 1000
               (recorded 0.02 (started (init 0 44100)))).
Proof.
  unfold after_first_run. rewrite start_unfold by reflexivity.
  unfold state_of. simpl. unfold callback_call, channel_samples. simpl.
  rewrite computed_volume_single by lra.
  rewrite after_click_eq.
  assert (Hd : decision 1000 0.02 (started (init 0 44100)) = true).
  { apply decision_true_iff. simpl. lra. }
  rewrite Hd. reflexivity.
Qed.

(** After a first run that clicked at clock value 1000, the state in which a
    second [start()] begins to process blocks still holds the reading 0.02
    and the timestamp 1000. *)
Lemma start_after_a_run_keeps_its_state :
  is_running after_first_run = false
  /\ items (volume_history (state_of (start_prologue after_first_run))) = [0.02]
  /\ last_click_time (state_of (start_prologue after_first_run)) = 1000
  /\ ~ start_clears_state after_first_run.
Proof.
  rewrite start_prologue_unfold, after_first_run_eq. unfold state_of. simpl.
  repeat split.
  intro Hclaim. unfold start_clears_state, cleared in Hclaim.
  rewrite start_prologue_unfold in Hclaim. unfold state_of in Hclaim.
  simpl in Hclaim. destruct (Hclaim eq_refl) as [Hitems _]. discriminate.
Qed.

(** The second run's block at 1000.1 is louder than the threshold but spawns
    no click, although the same run on a fresh detector does. *)
Lemma second_run_is_debounced_by_first_run :
  effects_of (start second_run after_first_run)
  = [Print (Listening 0.01); Print StrumHint; Print PressCtrlC;
     Print Stopping; Print Stopped]
  /\ effects_of (start second_run (init 0 44100))
     = [Print (Listening 0.01); Print StrumHint; Print PressCtrlC;
        SpawnClick 0.05; Print Stopping; Print Stopped].
Proof.
  split.
  - rewrite start_unfold by (rewrite after_first_run_eq; reflexivity).
    rewrite after_first_run_eq. unfold effects_of. simpl.
    unfold callback_effects, callback_call, channel_samples. simpl.
    rewrite computed_volume_single by lra.
    assert (Hd : decision 1000.1 0.05
                   (started (stopped (set_last_click_time 1000
                      (recorded 0.02 (started (init 0 44100)))))) = false).
    { apply decision_false_iff. simpl. lra. }
    rewrite Hd. reflexivity.
  - rewrite start_unfold by reflexivity. unfold effects_of. simpl.
    unfold callback_effects, callback_call, channel_samples. simpl.
    rewrite computed_volume_single by lra.
    assert (Hd : decision 1000.1 0.05 (started (init 0 44100)) = true).
    { apply decision_true_iff. simpl. lra. }
    rewrite Hd. reflexivity.
Qed.

(** C6 (amended). A [start()] on an idle detector sets [is_running], clears
    the stop signal and leaves the volume history, [last_click_time] and the
    configuration as they were; the blocks of the run are then processed
    from that state, and the call returns normally with the detector
    stopped. *)
Theorem start_keeps_history_and_timestamp (s : detector) (run : stream_run) :
  is_running s = false ->
  state_of (start_prologue s) = started s
  /\ is_running (state_of (start_prologue s)) = true
  /\ stop_event (state_of (start_prologue s)) = false
  /\ volume_history (state_of (start_prologue s)) = volume_history s
  /\ last_click_time (state_of (start_prologue s)) = last_click_time s
  /\ THRESHOLD (state_of (start_prologue s)) = THRESHOLD s
  /\ DEBOUNCE_TIME (state_of (start_prologue s)) = DEBOUNCE_TIME s
  /\ WINDOW_SIZE (state_of (start_prologue s)) = WINDOW_SIZE s
  /\ result_of (start run s) = Returned tt
  /\ state_of (start run s)
     = stopped (state_of
         (click_sequence (map callback_call (delivered run))
            (state_of (start_prologue s)))).
Proof.
  intro Hidle. rewrite start_prologue_unfold, (start_unfold run s Hidle).
  rewrite click_sequence_unfold. unfold state_of, result_of. simpl.
  repeat split.
Qed.

Lemma start_keeps_history_and_timestamp_witness :
  is_running (init 0 44100) = false
  /\ volume_history (state_of (start_prologue (init 0 44100)))
  = volume_history (init 0 44100)
  /\ last_click_time (state_of (start_prologue (init 0 44100)))
     = last_click_time (init 0 44100).
Proof.
  destruct (start_keeps_history_and_timestamp (init 0 44100) first_run eq_refl)
    as [_ [_ [_ [Hh [Ht _]]]]].
  split; [reflexivity |]. split; [exact Hh | exact Ht].
Defined.

(** C7. [start()] on a running detector prints the already-running line and
    returns at once, without raising and without changing any field of the
    detector, whatever the audio backend would have delivered. *)
Theorem start_while_running_is_noop (s : detector) (run : stream_run) :
  is_running s = true ->
  start run s = (Returned tt, s, [Print AlreadyRunning]).
Proof.
  intro Hrun. unfold start, bind, get. rewrite Hrun. reflexivity.
Qed.

Lemma start_while_running_is_noop_witness :
  is_running (started (init 0 44100)) = true
  /\ start first_run (started (init 0 44100))
     = (Returned tt, started (init 0 44100), [Print AlreadyRunning]).
Proof.
  split; [reflexivity |].
  apply (start_while_running_is_noop (started (init 0 44100)) first_run).
  reflexivity.
Defined.

(** A freshly constructed detector is idle with the stop signal clear;
    [stop()] sets the signal, so the state after the call differs from the
    state before it. *)
Lemma stop_on_fresh_detector_sets_stop_event :
  is_running (init 0 44100) = false
  /\ stop_event (init 0 44100) = false
  /\ stop_event (state_of (stop (init 0 44100))) = true
  /\ ~ stop_leaves_state (init 0 44100).
Proof.
  repeat split.
  intro Hclaim. destruct (Hclaim eq_refl) as [_ Hsame].
  apply (f_equal stop_event) in Hsame. discriminate.
Qed.

(** C8 (amended). [stop()] on an idle detector never raises; it leaves
    [is_running] false, sets the stop signal and changes nothing else, so it
    leaves the whole state unchanged when the stop signal was already set,
    as it is after any earlier [stop()]; and a second [stop()] leaves the
    state of the first. *)
Theorem stop_is_idempotent (s : detector) :
  is_running s = false ->
  result_of (stop s) = Returned tt
  /\ state_of (stop s) = set_stop_event true s
  /\ (stop_event s = true -> state_of (stop s) = s)
  /\ state_of (stop (state_of (stop s))) = state_of (stop s).
Proof.
  intro Hidle. rewrite !stop_unfold. unfold state_of, result_of. simpl.
  destruct s as [c ch r th d w run l h ev dev]. simpl in Hidle. subst run.
  repeat split. simpl. intros ->. reflexivity.
Qed.

Lemma stop_is_idempotent_witness :
  is_running (init 0 44100) = false
  /\ state_of (stop (state_of (stop (init 0 44100))))
     = state_of (stop (init 0 44100)).
Proof.
  split; [reflexivity |].
  apply (stop_is_idempotent (init 0 44100)). reflexivity.
Defined.

(** ** The history invariant is kept by every method *)

Lemma audio_callback_stopped (c : callback) (s : detector) :
  stop_event s = true ->
  audio_callback c s =
  (Returned tt, s,
   match status c with Some st => [Print (AudioStatus st)] | None => [] end).
Proof.
  intro Hstop. unfold audio_callback, bind, get.
  destruct (status c); simpl; rewrite Hstop; reflexivity.
Qed.

Lemma audio_callback_history_invariant (c : callback) (s : detector) :
  history_invariant s -> history_invariant (state_of (audio_callback c s)).
Proof.
  intro Hinv. destruct (stop_event s) eqn:Hstop.
  - rewrite (audio_callback_stopped c s Hstop). exact Hinv.
  - rewrite (audio_callback_unfold c s Hstop).
    apply after_click_history_invariant. exact Hinv.
Qed.

Lemma start_history_invariant (run : stream_run) (s : detector) :
  history_invariant s -> history_invariant (state_of (start run s)).
Proof.
  intro Hinv. destruct (is_running s) eqn:Hrun.
  - unfold start, bind, get. rewrite Hrun. exact Hinv.
  - rewrite (start_unfold run s Hrun).
    assert (Hstarted : history_invariant (started s)) by exact Hinv.
    destruct (after_calls_history (map callback_call (delivered run))
                (started s) Hstarted) as [Hafter _].
    exact Hafter.
Qed.

Lemma stop_history_invariant (s : detector) :
  history_invariant s -> history_invariant (state_of (stop s)).
Proof. intro Hinv. exact Hinv. Qed.

Lemma adjust_sensitivity_history_invariant (x : R) (s : detector) :
  history_invariant s ->
  history_invariant (state_of (adjust_sensitivity x s)).
Proof. intro Hinv. exact Hinv. Qed.

(** ** Adjusting the sensitivity *)

Lemma adjust_sensitivity_unfold (x : R) (s : detector) :
  adjust_sensitivity x s =
  (Returned tt,
   set_THRESHOLD (py_max 0.001 (py_min 1.0 x)) s,
   [Print (SensitivityAdjusted (py_max 0.001 (py_min 1.0 x)))]).
Proof. reflexivity. Qed.

Lemma py_min_cases (a b : R) :
  (b < a /\ py_min a b = b) \/ (a <= b /\ py_min a b = a).
Proof.
  unfold py_min. destruct (Rltb b a) eqn:Hlt.
  - left. apply Rltb_true_iff in Hlt. split; [exact Hlt | reflexivity].
  - right. apply Rltb_false_iff in Hlt. split; [exact Hlt | reflexivity].
Qed.

Lemma py_max_cases (a b : R) :
  (b > a /\ py_max a b = b) \/ (b <= a /\ py_max a b = a).
Proof.
  unfold py_max. destruct (Rgtb b a) eqn:Hgt.
  - left. apply Rgtb_true_iff in Hgt. split; [exact Hgt | reflexivity].
  - right. apply Rgtb_false_iff in Hgt. split; [exact Hgt | reflexivity].
Qed.

(** The clamp as the code nests it equals the clamp written with the
    mathematical minimum and maximum. *)
Lemma clamp_eq (x : R) :
  py_max 0.001 (py_min 1.0 x) = Rmin (Rmax x 0.001) 1.0.
Proof.
  destruct (py_min_cases 1.0 x) as [[Hx Hmin] | [Hx Hmin]]; rewrite Hmin;
    destruct (py_max_cases 0.001 x) as [[Hy Hmax] | [Hy Hmax]];
    destruct (py_max_cases 0.001 1.0) as [[Hz Hmax1] | [Hz Hmax1]];
    try rewrite Hmax; try rewrite Hmax1;
    unfold Rmax; destruct (Rle_dec x 0.001) as [Hle | Hnle];
    unfold Rmin;
    match goal with
    | |- context [Rle_dec ?a ?b] => destruct (Rle_dec a b)
    end; lra.
Qed.

Lemma clamp_bounds (x : R) :
  0.001 <= py_max 0.001 (py_min 1.0 x) <= 1.0.
Proof.
  destruct (py_min_cases 1.0 x) as [[Hx Hmin] | [Hx Hmin]]; rewrite Hmin.
  - destruct (py_max_cases 0.001 x) as [[Hy Hmax] | [Hy Hmax]];
      rewrite Hmax; lra.
  - destruct (py_max_cases 0.001 1.0) as [[Hy Hmax] | [Hy Hmax]];
      rewrite Hmax; lra.
Qed.

Lemma clamp_non_positive (x : R) :
  x <= 0 -> py_max 0.001 (py_min 1.0 x) = 0.001.
Proof.
  intro Hx.
  destruct (py_min_cases 1.0 x) as [[Hlt Hmin] | [Hle Hmin]]; [| lra].
  rewrite Hmin.
  destruct (py_max_cases 0.001 x) as [[Hy Hmax] | [Hy Hmax]]; [lra |].
  exact Hmax.
Qed.

(** [adjust_sensitivity(-1)] on a fresh detector returns normally, with the
    threshold set to 0.001: no error reaches the caller. *)
Lemma negative_sensitivity_is_clamped_not_rejected :
  -1 <= 0
  /\ result_of (adjust_sensitivity (-1) (init 0 44100)) = Returned tt
  /\ THRESHOLD (state_of (adjust_sensitivity (-1) (init 0 44100))) = 0.001
  /\ ~ rejects_non_positive (-1) (init 0 44100).
Proof.
  assert (Hneg : -1 <= 0) by lra.
  split; [exact Hneg |].
  split; [reflexivity |].
  split.
  - rewrite adjust_sensitivity_unfold. unfold state_of. simpl.
    apply clamp_non_positive. exact Hneg.
  - intro Hclaim. destruct (Hclaim Hneg) as [e He].
    rewrite adjust_sensitivity_unfold in He. discriminate.
Qed.

(** C9 (amended). [adjust_sensitivity], the configuration operation of the
    detector, raises no error for any input: a non-positive threshold is
    replaced by 0.001. It leaves [DEBOUNCE_TIME] as it was, so on a detector
    with a positive debounce time the configuration invariant (threshold in
    (0, 1], debounce positive) holds after the call. *)
Theorem adjust_sensitivity_keeps_config_invariant (x : R) (s : detector) :
  0 < DEBOUNCE_TIME s ->
  result_of (adjust_sensitivity x s) = Returned tt
  /\ (x <= 0 -> THRESHOLD (state_of (adjust_sensitivity x s)) = 0.001)
  /\ DEBOUNCE_TIME (state_of (adjust_sensitivity x s)) = DEBOUNCE_TIME s
  /\ config_invariant (state_of (adjust_sensitivity x s)).
Proof.
  intro Hd. rewrite adjust_sensitivity_unfold.
  unfold result_of, state_of, config_invariant. simpl.
  pose proof (clamp_bounds x) as Hb.
  split; [reflexivity |].
  split; [apply clamp_non_positive |].
  split; [reflexivity |].
  split; [lra | exact Hd].
Qed.

Lemma adjust_sensitivity_keeps_config_invariant_witness :
  0 < DEBOUNCE_TIME (init 0 44100)
  /\ config_invariant (state_of (adjust_sensitivity (-1) (init 0 44100))).
Proof.
  assert (Hd : 0 < DEBOUNCE_TIME (init 0 44100)) by (simpl; lra).
  split; [exact Hd |].
  apply (adjust_sensitivity_keeps_config_invariant (-1) (init 0 44100) Hd).
Defined.

(** C10. For every real input [x], [adjust_sensitivity(x)] returns without
    raising and sets [THRESHOLD] to [min(max(x, 0.001), 1.0)], changing no
    other field; so the threshold then lies in [0.001, 1.0], also for zero
    and negative [x]. *)
Theorem adjust_sensitivity_clamps (x : R) (s : detector) :
  result_of (adjust_sensitivity x s) = Returned tt
  /\ state_of (adjust_sensitivity x s)
     = set_THRESHOLD (Rmin (Rmax x 0.001) 1.0) s
  /\ THRESHOLD (state_of (adjust_sensitivity x s)) = Rmin (Rmax x 0.001) 1.0
  /\ 0.001 <= THRESHOLD (state_of (adjust_sensitivity x s)) <= 1.0.
Proof.
  rewrite adjust_sensitivity_unfold. unfold result_of, state_of. simpl.
  rewrite <- clamp_eq.
  split; [reflexivity |].
  split; [reflexivity |].
  split; [reflexivity |].
  apply clamp_bounds.
Qed.

(** ** A worked session *)

(** Threshold 0.01 and debounce 0.2 on a fresh detector: blocks at clock
    values 1000.0, 1000.05 and 1000.25 with volumes 0.02, 0.05 and 0.015
    trigger, are debounced, and trigger. *)
Example session_decisions :
  result_of
    (click_sequence [(1000, 0.02); (1000.05, 0.05); (1000.25, 0.015)]
       (init 0 44100))
  = Returned [true; false; true].
Proof.
  rewrite click_sequence_unfold. unfold result_of. simpl. f_equal.
  assert (H1 : decision 1000 0.02 (init 0 44100) = true).
  { apply decision_true_iff. simpl. lra. }
  rewrite H1, after_click_eq, H1.
  assert (H2 : decision 1000.05 0.05
                 (set_last_click_time 1000 (recorded 0.02 (init 0 44100)))
               = false).
  { apply decision_false_iff. simpl. lra. }
  rewrite H2, after_click_eq, H2.
  assert (H3 : decision 1000.25 0.015
                 (recorded 0.05
                    (set_last_click_time 1000 (recorded 0.02 (init 0 44100))))
               = true).
  { apply decision_true_iff. simpl. lra. }
  rewrite H3. reflexivity.
Qed.

(** * Further properties of the code *)

(** ** More on the volume estimator *)


Lemma np_sum_squares_bound (l : list R) (m : R) :
  Forall (fun x => Rabs x <= m) l ->
  np_sum (np_square l) <= INR (length l) * (m * m).
Proof.
  induction 1 as [| x l Hx _ IH]; unfold np_sum in *.
  - simpl. lra.
  - change (length (x :: l)) with (S (length l)). rewrite S_INR. simpl.
    assert (Hsq : x * x <= m * m).
    { unfold Rabs in Hx. destruct (Rcase_abs x); nra. }
    lra.
Qed.


Lemma np_square_length (l : list R) : length (np_square l) = length l.
Proof. apply length_map. Qed.

Lemma positive_length (l : list R) :
  Nat.eqb (length l) 0 = false -> 0 < INR (length l).
Proof.
  intro Hne. apply Nat.eqb_neq in Hne. apply lt_0_INR. lia.
Qed.

Lemma computed_volume_peak (l : list R) (m : R) :
  Forall (fun x => Rabs x <= m) l -> 0 <= m -> 0 <= computed_volume l <= m.
Proof.
  intros Hpeak Hm. split; [apply computed_volume_nonneg |].
  unfold computed_volume. destruct (Nat.eqb (length l) 0) eqn:Hlen.
  - exact Hm.
  - pose proof (positive_length l Hlen) as Hn.
    rewrite <- (sqrt_square m Hm). apply sqrt_le_1_alt.
    unfold np_mean. rewrite np_square_length.
    pose proof (np_sum_squares_bound l m Hpeak) as Hsum.
    apply (Rmult_le_reg_r (INR (length l))); [exact Hn |].
    replace (np_sum (np_square l) / INR (length l) * INR (length l))
      with (np_sum (np_square l)) by (field; lra).
    lra.
Qed.






(** ** How often and on what the detector clicks *)

Lemma clicks_cons (b : bool) (results : list bool) :
  clicks (b :: results) = ((if b then 1 else 0) + clicks results)%nat.
Proof.
  unfold clicks. simpl. destruct (bool_dec b true) as [Hb | Hb].
  - rewrite Hb. reflexivity.
  - destruct b; [contradiction | reflexivity].
Qed.

(** From a state whose last click was at [L], [n >= 1] clicks on calls made
    no later than [b] need more than [n] debounce times between [L] and [b]. *)
Lemma clicks_need_time (calls : list (R * R)) :
  forall (s : detector) (b : R),
    Forall (fun c => fst c <= b) calls ->
    (1 <= clicks (decisions calls s))%nat ->
    INR (clicks (decisions calls s)) * DEBOUNCE_TIME s
    < b - last_click_time s.
Proof.
  induction calls as [| [t v] rest IH]; intros s b Hb Hsome.
  - simpl in Hsome. unfold clicks in Hsome. simpl in Hsome. lia.
  - simpl in Hsome |- *. rewrite clicks_cons in Hsome |- *.
    pose proof (Forall_inv Hb) as Ht. simpl in Ht.
    pose proof (Forall_inv_tail Hb) as Hrest.
    specialize (IH (after_click t v s) b Hrest).
    rewrite after_click_DEBOUNCE_TIME, after_click_last_click_time in IH.
    destruct (decision t v s) eqn:Hd.
    + apply decision_true_iff in Hd. destruct Hd as [_ Hgap].
      destruct (clicks (decisions rest (after_click t v s))) as [| n] eqn:Hn.
      * simpl. lra.
      * assert (Hpos : (1 <= S n)%nat) by lia.
        specialize (IH Hpos).
        change (1 + S n)%nat with (S (S n)). rewrite S_INR. lra.
    + simpl in Hsome |- *. apply IH. exact Hsome.
Qed.

Lemma clicks_fit_in_window (calls : list (R * R)) :
  forall (s : detector) (a b : R),
    Forall (fun c => a <= fst c <= b) calls ->
    (1 <= clicks (decisions calls s))%nat ->
    INR (clicks (decisions calls s) - 1) * DEBOUNCE_TIME s <= b - a.
Proof.
  induction calls as [| [t v] rest IH]; intros s a b Hin Hsome.
  - simpl in Hsome. unfold clicks in Hsome. simpl in Hsome. lia.
  - simpl in Hsome |- *. rewrite clicks_cons in Hsome |- *.
    pose proof (Forall_inv Hin) as Ht. simpl in Ht.
    pose proof (Forall_inv_tail Hin) as Hrest.
    destruct (decision t v s) eqn:Hd.
    + replace (1 + clicks (decisions rest (after_click t v s)) - 1)%nat
        with (clicks (decisions rest (after_click t v s))) by lia.
      destruct (clicks (decisions rest (after_click t v s))) as [| n] eqn:Hn.
      * simpl. lra.
      * assert (Hupper : Forall (fun c : R * R => fst c <= b) rest).
        { eapply Forall_impl; [| exact Hrest]. intros c Hc. simpl in Hc. lra. }
        pose proof (clicks_need_time rest (after_click t v s) b Hupper) as Hneed.
        rewrite Hn in Hneed.
        rewrite after_click_DEBOUNCE_TIME, after_click_last_click_time in Hneed.
        rewrite Hd in Hneed.
        assert (Hpos : (1 <= S n)%nat) by lia.
        specialize (Hneed Hpos). lra.
    + simpl in Hsome |- *.
      specialize (IH (after_click t v s) a b Hrest Hsome).
      rewrite after_click_DEBOUNCE_TIME in IH. exact IH.
Qed.

(** X4. Rate limit. Among any calls of [should_click] whose clock values all
    lie in an interval [a, b], in whatever order and from whatever state, [n]
    calls returning [True] need [(n - 1) * DEBOUNCE_TIME <= b - a]; with a
    positive debounce time at most [(b - a) / DEBOUNCE_TIME + 1] calls
    trigger. *)
Theorem click_rate_is_limited (s : detector) (calls : list (R * R)) (a b : R) :
  Forall (fun c => a <= fst c <= b) calls ->
  exists results : list bool,
    result_of (click_sequence calls s) = Returned results
    /\ ((1 <= clicks results)%nat ->
        INR (clicks results - 1) * DEBOUNCE_TIME s <= b - a)
    /\ ((1 <= clicks results)%nat -> 0 < DEBOUNCE_TIME s ->
        INR (clicks results) <= (b - a) / DEBOUNCE_TIME s + 1).
Proof.
  intro Hin. exists (decisions calls s).
  rewrite click_sequence_unfold. split; [reflexivity |].
  split; [apply clicks_fit_in_window; exact Hin |].
  intros Hsome Hd.
  pose proof (clicks_fit_in_window calls s a b Hin Hsome) as Hfit.
  rewrite minus_INR in Hfit by exact Hsome. simpl in Hfit.
  apply (Rmult_le_reg_r (DEBOUNCE_TIME s)); [exact Hd |].
  replace (((b - a) / DEBOUNCE_TIME s + 1) * DEBOUNCE_TIME s)
    with (b - a + DEBOUNCE_TIME s) by (field; lra).
  lra.
Qed.

Lemma click_rate_is_limited_witness :
  Forall (fun c => 1000 <= fst c <= 1000.25)
    [(1000, 0.02); (1000.05, 0.05); (1000.25, 0.015)]
  /\ exists results : list bool,
       result_of
         (click_sequence [(1000, 0.02); (1000.05, 0.05); (1000.25, 0.015)]
            (init 0 44100)) = Returned results
       /\ ((1 <= clicks results)%nat ->
           INR (clicks results - 1) * 0.2 <= 1000.25 - 1000)
       /\ ((1 <= clicks results)%nat -> 0 < 0.2 ->
           INR (clicks results) <= (1000.25 - 1000) / 0.2 + 1).
Proof.
  assert (Hin : Forall (fun c => 1000 <= fst c <= 1000.25)
                  [(1000, 0.02); (1000.05, 0.05); (1000.25, 0.015)]).
  { repeat (apply Forall_cons; [simpl; lra |]). apply Forall_nil. }
  split; [exact Hin |].
  apply (click_rate_is_limited (init 0 44100)
           [(1000, 0.02); (1000.05, 0.05); (1000.25, 0.015)] 1000 1000.25 Hin).
Defined.

Lemma spawned_app (w1 w2 : list effect) :
  spawned (w1 ++ w2) = spawned w1 ++ spawned w2.
Proof.
  induction w1 as [| e w1 IH]; simpl.
  - reflexivity.
  - destruct e; simpl; rewrite IH; reflexivity.
Qed.

Lemma spawned_handler_effects (e : exn) : spawned (handler_effects e) = [].
Proof. destruct e; reflexivity. Qed.

Lemma spawned_deliver_effects (cs : list callback) :
  forall s : detector,
    spawned (deliver_effects cs s)
    = triggering_volumes (map callback_call cs) s.
Proof.
  induction cs as [| c rest IH]; intro s.
  - reflexivity.
  - simpl. rewrite spawned_app, IH. unfold callback_effects, callback_call.
    simpl. rewrite spawned_app. f_equal.
    destruct (status c); simpl;
      destruct (decision (clock c)
                  (computed_volume (channel_samples (indata c))) s);
      reflexivity.
Qed.

Lemma triggering_volumes_length (calls : list (R * R)) :
  forall s : detector,
    length (triggering_volumes calls s) = clicks (decisions calls s).
Proof.
  induction calls as [| [t v] rest IH]; intro s.
  - reflexivity.
  - simpl. rewrite length_app, clicks_cons, IH.
    destruct (decision t v s); reflexivity.
Qed.

Lemma triggering_volumes_loud (calls : list (R * R)) :
  forall s : detector,
    Forall (fun v => v > THRESHOLD s) (triggering_volumes calls s).
Proof.
  induction calls as [| [t v] rest IH]; intro s.
  - constructor.
  - simpl. apply Forall_app. split.
    + destruct (decision t v s) eqn:Hd; [| constructor].
      apply decision_true_iff in Hd. constructor; [tauto | constructor].
    + specialize (IH (after_click t v s)).
      rewrite after_click_THRESHOLD in IH. exact IH.
Qed.

Lemma spawned_start (run : stream_run) (s : detector) :
  is_running s = false ->
  spawned (effects_of (start run s))
  = triggering_volumes (map callback_call (delivered run)) (started s).
Proof.
  intro Hidle. rewrite (start_unfold run s Hidle). unfold effects_of. simpl.
  rewrite !spawned_app, spawned_deliver_effects, spawned_handler_effects.
  simpl. rewrite !app_nil_r. reflexivity.
Qed.

(** X5. During one [start()] on an idle detector, whatever the backend
    delivers and however the run ends: every click thread is started for a
    block whose volume is strictly above [THRESHOLD]; as many threads are
    started as callbacks decide to click; and when the clock values of the
    callbacks all lie in an interval [a, b], [n >= 1] threads need
    [(n - 1) * DEBOUNCE_TIME <= b - a]. *)
Theorem run_spawns_only_loud_spaced_clicks
  (s : detector) (run : stream_run) (a b : R) :
  is_running s = false ->
  Forall (fun c => a <= clock c <= b) (delivered run) ->
  Forall (fun v => v > THRESHOLD s) (spawned (effects_of (start run s)))
  /\ (exists results : list bool,
        result_of (click_sequence (map callback_call (delivered run))
                     (state_of (start_prologue s))) = Returned results
        /\ length (spawned (effects_of (start run s))) = clicks results)
  /\ ((1 <= length (spawned (effects_of (start run s))))%nat ->
      INR (length (spawned (effects_of (start run s))) - 1) * DEBOUNCE_TIME s
      <= b - a).
Proof.
  intros Hidle Hin. rewrite (spawned_start run s Hidle).
  split; [apply (triggering_volumes_loud _ (started s)) |].
  split.
  - exists (decisions (map callback_call (delivered run)) (started s)).
    rewrite start_prologue_unfold, click_sequence_unfold.
    split; [reflexivity | apply triggering_volumes_length].
  - rewrite triggering_volumes_length. intro Hsome.
    apply (clicks_fit_in_window _ (started s) a b); [| exact Hsome].
    apply Forall_map. eapply Forall_impl; [| exact Hin].
    intros c Hc. exact Hc.
Qed.

Lemma run_spawns_only_loud_spaced_clicks_witness :
  is_running (init 0 44100) = false
  /\ Forall (fun c => 1000 <= clock c <= 1000) (delivered first_run)
  /\ Forall (fun v => v > 0.01)
       (spawned (effects_of (start first_run (init 0 44100)))).
Proof.
  assert (Hin : Forall (fun c => 1000 <= clock c <= 1000) (delivered first_run)).
  { apply Forall_cons; [simpl; lra | apply Forall_nil]. }
  split; [reflexivity |]. split; [exact Hin |].
  apply (run_spawns_only_loud_spaced_clicks
           (init 0 44100) first_run 1000 1000 eq_refl Hin).
Defined.

(** ** Callbacks after a stop, and consecutive runs *)

Lemma deliver_stopped (cs : list callback) (s : detector) :
  stop_event s = true ->
  result_of (deliver cs s) = Returned tt
  /\ state_of (deliver cs s) = s
  /\ spawned (effects_of (deliver cs s)) = [].
Proof.
  intro Hstop. induction cs as [| c rest IH].
  - repeat split.
  - simpl. unfold bind. rewrite (audio_callback_stopped c s Hstop).
    destruct IH as [Hres [Hstate Hspawn]].
    destruct (deliver rest s) as [[r s'] w].
    unfold result_of, state_of, effects_of in *. simpl in *.
    split; [exact Hres |]. split; [exact Hstate |].
    rewrite spawned_app, Hspawn.
    destruct (status c); reflexivity.
Qed.

(** X6. Once the stop signal is set, as it is after every [stop()], the
    callbacks the backend still delivers are ignored: whatever their blocks
    and clock values, they return normally, start no click thread and leave
    every field of the detector, the history and [last_click_time] included,
    as it was. *)
Theorem callbacks_after_stop_are_ignored (cs : list callback) (s : detector) :
  stop_event s = true ->
  result_of (deliver cs s) = Returned tt
  /\ state_of (deliver cs s) = s
  /\ spawned (effects_of (deliver cs s)) = []
  /\ (forall s0 : detector,
        state_of (deliver cs (state_of (stop s0))) = state_of (stop s0)).
Proof.
  intro Hstop.
  destruct (deliver_stopped cs s Hstop) as [Hres [Hstate Hspawn]].
  repeat split; try assumption.
  intro s0. apply (deliver_stopped cs (state_of (stop s0))). reflexivity.
Qed.

Lemma callbacks_after_stop_are_ignored_witness :
  stop_event after_first_run = true
  /\ state_of (deliver (delivered second_run) after_first_run) = after_first_run.
Proof.
  assert (Hstop : stop_event after_first_run = true).
  { rewrite after_first_run_eq. reflexivity. }
  split; [exact Hstop |].
  apply (callbacks_after_stop_are_ignored (delivered second_run)
           after_first_run Hstop).
Defined.

Lemma after_calls_app (c1 c2 : list (R * R)) :
  forall s : detector,
    after_calls (c1 ++ c2) s = after_calls c2 (after_calls c1 s).
Proof.
  induction c1 as [| [t v] rest IH]; intro s; simpl.
  - reflexivity.
  - apply IH.
Qed.

Lemma after_calls_flags (calls : list (R * R)) :
  forall s : detector,
    is_running (after_calls calls s) = is_running s
    /\ stop_event (after_calls calls s) = stop_event s.
Proof.
  induction calls as [| [t v] rest IH]; intro s; simpl.
  - split; reflexivity.
  - destruct (IH (after_click t v s)) as [Hrun Hstop].
    rewrite Hrun, Hstop, after_click_is_running, after_click_stop_event.
    split; reflexivity.
Qed.

Lemma started_stopped (s : detector) :
  is_running s = true -> stop_event s = false -> started (stopped s) = s.
Proof.
  destruct s as [c ch r th d w run l h ev dev]. simpl.
  intros -> ->. reflexivity.
Qed.

(** X7. Two runs in a row behave, for the detector state, as one run that
    receives the callbacks of both: stopping and starting again carries the
    history and [last_click_time] over and resets nothing. *)
Theorem consecutive_runs_compose (s : detector) (first second : stream_run) :
  is_running s = false ->
  is_running (state_of (start first s)) = false
  /\ state_of (start second (state_of (start first s)))
     = state_of (start (merged_run first second) s).
Proof.
  intro Hidle. rewrite (start_unfold first s Hidle).
  unfold state_of at 1 2. simpl fst. simpl snd.
  split; [reflexivity |].
  rewrite (start_unfold second) by reflexivity.
  rewrite (start_unfold (merged_run first second) s Hidle).
  unfold state_of. simpl. rewrite map_app, after_calls_app.
  destruct (after_calls_flags (map callback_call (delivered first)) (started s))
    as [Hrun Hstop].
  rewrite (started_stopped _ Hrun Hstop). reflexivity.
Qed.

Lemma consecutive_runs_compose_witness :
  is_running (init 0 44100) = false
  /\ state_of (start second_run (state_of (start first_run (init 0 44100))))
     = state_of (start (merged_run first_run second_run) (init 0 44100)).
Proof.
  split; [reflexivity |].
  apply (consecutive_runs_compose (init 0 44100) first_run second_run).
  reflexivity.
Defined.

(** ** Sensitivity and the decision *)

(** X8. Whatever value is passed to [adjust_sensitivity], afterwards a block
    whose volume is at most 0.001 (silence in particular) never triggers, and
    a block whose volume is above 1 triggers exactly when the debounce time
    has passed: no setting makes the detector click on silence or deaf to a
    full-scale signal. *)
Theorem sensitivity_keeps_floor_and_ceiling (x now v : R) (s : detector) :
  (v <= 0.001 ->
   result_of (should_click now v (state_of (adjust_sensitivity x s)))
   = Returned false)
  /\ (1 < v ->
      (result_of (should_click now v (state_of (adjust_sensitivity x s)))
       = Returned true
       <-> now - last_click_time s > DEBOUNCE_TIME s)).
Proof.
  rewrite adjust_sensitivity_unfold. unfold state_of. cbn [fst snd].
  pose proof (clamp_bounds x) as Hb.
  rewrite should_click_unfold.
  destruct (decision now v (set_THRESHOLD (py_max 0.001 (py_min 1.0 x)) s)) eqn:Hd.
  - apply decision_true_iff in Hd. simpl in Hd. split.
    + intro Hv. exfalso. lra.
    + intro Hv. split; [intros _; tauto | reflexivity].
  - apply decision_false_iff in Hd. simpl in Hd. split.
    + intros _. reflexivity.
    + intro Hv. split; [discriminate |]. intro Ht. exfalso. lra.
Qed.

(** ** The level test *)

Lemma py_int_floor (x : R) :
  0 <= x -> IZR (py_int x) <= x < IZR (py_int x) + 1.
Proof.
  intro Hx. unfold py_int. destruct (Rle_dec 0 x) as [_ | Hneg]; [| lra].
  pose proof (base_Int_part x) as [Hle Hgt]. lra.
Qed.

Lemma py_int_nonneg (x : R) : 0 <= x -> (0 <= py_int x)%Z.
Proof.
  intro Hx. pose proof (py_int_floor x Hx) as [_ Hlt].
  assert (Hgt : IZR (-1) < IZR (py_int x)) by (simpl; lra).
  apply lt_IZR in Hgt. lia.
Qed.

Lemma py_int_le (x : R) (n : Z) : 0 <= x -> x <= IZR n -> (py_int x <= n)%Z.
Proof.
  intros Hx Hn. pose proof (py_int_floor x Hx) as [Hle _].
  apply le_IZR. lra.
Qed.

Lemma py_int_lt (x : R) (n : Z) : 0 <= x -> x < IZR n -> (py_int x < n)%Z.
Proof.
  intros Hx Hn. pose proof (py_int_floor x Hx) as [Hle _].
  apply lt_IZR. lra.
Qed.

Lemma py_int_ge (x : R) (n : Z) : 0 <= x -> IZR n <= x -> (n <= py_int x)%Z.
Proof.
  intros Hx Hn. pose proof (py_int_floor x Hx) as [_ Hlt].
  assert (Hgt : IZR n < IZR (py_int x + 1)) by (rewrite plus_IZR; simpl; lra).
  apply lt_IZR in Hgt. lia.
Qed.

Lemma py_repeat_length {A : Type} (c : A) (n : Z) :
  length (py_repeat c n) = Z.to_nat n.
Proof. unfold py_repeat. apply repeat_length. Qed.

Lemma meter_bar_length (v : R) :
  0 <= v -> length (meter_bar v) = Z.to_nat (Z.max 50 (py_int (v * 50))).
Proof.
  intro Hv. unfold meter_bar. rewrite length_app, !py_repeat_length.
  assert (Hk : (0 <= py_int (v * 50))%Z) by (apply py_int_nonneg; lra).
  lia.
Qed.

Lemma test_callback_unfold (c : callback) (s : detector) :
  test_callback c s = (Returned tt, s, [Console (meter_line c s)]).
Proof.
  unfold test_callback, io_bind, lift. rewrite calculate_volume_unfold.
  reflexivity.
Qed.

Lemma test_deliver_unfold (cs : list callback) (s : detector) :
  test_deliver cs s
  = (Returned tt, s, map (fun c => Console (meter_line c s)) cs).
Proof.
  induction cs as [| c rest IH]; simpl.
  - reflexivity.
  - unfold io_bind. rewrite test_callback_unfold, IH. reflexivity.
Qed.

(** X9. The level meter. For every block, [test_callback] prints one meter
    line and nothing else, and leaves the detector alone. The bar holds
    [int(volume * 50)] full cells followed by the light cells that fill it up
    to 50, so it is [max(50, int(volume * 50))] cells long: exactly 50 for a
    block of normalized samples, and longer than 50 only for a volume of at
    least 1.02. With a threshold in [0.001, 1] the reported threshold
    position lies between 0 and 50. *)
Theorem level_meter_bar (c : callback) (s : detector) :
  exists (v : R) (bar : list cell) (pos : Z),
    test_callback c s = (Returned tt, s, [Console (Meter v bar pos)])
    /\ calculate_volume (channel_samples (indata c)) s = (Returned v, s, [])
    /\ bar = repeat Filled (Z.to_nat (py_int (v * 50)))
             ++ repeat Hollow (50 - Z.to_nat (py_int (v * 50)))
    /\ IZR (py_int (v * 50)) <= v * 50 < IZR (py_int (v * 50)) + 1
    /\ length bar = Nat.max 50 (Z.to_nat (py_int (v * 50)))
    /\ (Forall (fun x => Rabs x <= 1) (channel_samples (indata c)) ->
        length bar = 50%nat)
    /\ ((50 < length bar)%nat <-> 1.02 <= v)
    /\ (0.001 <= THRESHOLD s <= 1 -> (0 <= pos <= 50)%Z).
Proof.
  set (v := computed_volume (channel_samples (indata c))).
  assert (Hv : 0 <= v) by apply computed_volume_nonneg.
  assert (Hk : (0 <= py_int (v * 50))%Z) by (apply py_int_nonneg; lra).
  exists v, (meter_bar v), (py_int (THRESHOLD s * 50)).
  split; [apply test_callback_unfold |].
  split; [apply calculate_volume_unfold |].
  assert (Hlen : length (meter_bar v) = Nat.max 50 (Z.to_nat (py_int (v * 50)))).
  { rewrite (meter_bar_length v Hv). lia. }
  split.
  { unfold meter_bar, py_repeat. f_equal. f_equal. lia. }
  split; [apply py_int_floor; lra |].
  split; [exact Hlen |].
  split.
  { intro Hnorm.
    destruct (computed_volume_peak (channel_samples (indata c)) 1 Hnorm)
      as [_ Hle]; [lra |].
    fold v in Hle. rewrite Hlen.
    assert (Hle50 : (py_int (v * 50) <= 50)%Z) by (apply py_int_le; simpl; lra).
    lia. }
  split.
  { rewrite Hlen. split.
    - intro Hlong.
      assert (Hge : (51 <= py_int (v * 50))%Z) by lia.
      pose proof (py_int_floor (v * 50)) as [Hfl _]; [lra |].
      apply IZR_le in Hge. simpl in Hge. lra.
    - intro Hloud.
      assert (Hge : (51 <= py_int (v * 50))%Z) by (apply py_int_ge; simpl; lra).
      lia. }
  intros [Hlo Hhi]. split.
  - apply py_int_nonneg. lra.
  - apply py_int_le; simpl; lra.
Qed.

Lemma test_audio_levels_unfold (duration : Z) (t : level_test) (s : detector) :
  test_audio_levels duration t s =
  match test_open_error t with
  | Some msg =>
      (Returned tt, s,
       [Console (TestingLevels duration); Console PlayYourGuitar;
        Console (TestFailed msg)])
  | None =>
      if (duration <? 0)%Z then
        (Returned tt, s,
         [Console (TestingLevels duration); Console PlayYourGuitar]
         ++ map (fun c => Console (meter_line c s)) (test_delivered t)
         ++ [Console (TestFailed "sleep length must be non-negative")])
      else
        match test_interrupt t with
        | None =>
            (Returned tt, s,
             [Console (TestingLevels duration); Console PlayYourGuitar]
             ++ map (fun c => Console (meter_line c s)) (test_delivered t)
             ++ [Console TestComplete])
        | Some (Exception msg) =>
            (Returned tt, s,
             [Console (TestingLevels duration); Console PlayYourGuitar]
             ++ map (fun c => Console (meter_line c s)) (test_delivered t)
             ++ [Console (TestFailed msg)])
        | Some KeyboardInterrupt =>
            (Raised KeyboardInterrupt, s,
             [Console (TestingLevels duration); Console PlayYourGuitar]
             ++ map (fun c => Console (meter_line c s)) (test_delivered t))
        end
  end.
Proof.
  unfold test_audio_levels, catch_Exception, sleep.
  unfold io_bind at 1 2. simpl.
  destruct (test_open_error t) as [msg |].
  - reflexivity.
  - unfold io_bind at 1. simpl. unfold io_bind at 1.
    rewrite test_deliver_unfold. unfold io_bind.
    destruct (duration <? 0)%Z.
    + simpl. rewrite ?app_nil_r. reflexivity.
    + destruct (test_interrupt t) as [[msg |] |]; simpl;
        rewrite ?app_nil_r; reflexivity.
Qed.

Lemma meter_lines_only (cs : list callback) (s : detector) (ev : event) :
  In ev (map (fun c => Console (meter_line c s)) cs) ->
  exists v bar pos, ev = Console (Meter v bar pos).
Proof.
  intro Hin. apply in_map_iff in Hin. destruct Hin as [c [Heq _]].
  unfold meter_line in Heq. eauto.
Qed.


(** ** Choosing the device *)

Lemma prefix_iff (keyword text : string) :
  String.prefix keyword text = true
  <-> exists rest : string, text = String.append keyword rest.
Proof.
  revert text. induction keyword as [| a keyword IH]; intro text.
  - destruct text; simpl; split; intros _; try reflexivity; eexists; reflexivity.
  - destruct text as [| b text]; simpl.
    + split; [discriminate | intros [rest Hrest]; discriminate].
    + destruct (ascii_dec a b) as [-> | Hab].
      * rewrite IH. split; intros [rest Hrest]; exists rest.
        -- rewrite Hrest. reflexivity.
        -- injection Hrest as Hrest. exact Hrest.
      * split; [discriminate |].
        intros [rest Hrest]. injection Hrest as Hb _. congruence.
Qed.

(** [contains] is substring containment. *)
Lemma contains_iff (keyword text : string) :
  contains keyword text = true
  <-> exists before rest : string,
        text = String.append before (String.append keyword rest).
Proof.
  induction text as [| c text IH].
  - cbn [contains]. rewrite orb_false_r, prefix_iff. split.
    + intros [rest Hrest]. exists EmptyString, rest. exact Hrest.
    + intros [before [rest Hrest]].
      destruct before as [| b before]; [exists rest; exact Hrest |].
      discriminate.
  - cbn [contains]. rewrite orb_true_iff, prefix_iff, IH. split.
    + intros [[rest Hrest] | [before [rest Hrest]]].
      * exists EmptyString, rest. exact Hrest.
      * exists (String c before), rest. simpl. rewrite Hrest. reflexivity.
    + intros [before [rest Hrest]].
      destruct before as [| b before].
      * left. exists rest. exact Hrest.
      * right. simpl in Hrest. injection Hrest as _ Hrest.
        exists before, rest. exact Hrest.
Qed.

Lemma py_getitem_in_range {A : Type} (l : list A) (i : Z) :
  (0 <= i < Z.of_nat (length l))%Z ->
  py_getitem l i = nth_error l (Z.to_nat i).
Proof.
  intro Hi. unfold py_getitem.
  destruct (Z.leb_spec 0 i); [| lia].
  destruct (Z.ltb_spec i (Z.of_nat (length l))); [| lia].
  reflexivity.
Qed.

Lemma py_getitem_from_end {A : Type} (l : list A) (i : Z) :
  (- Z.of_nat (length l) <= i < 0)%Z ->
  py_getitem l i = nth_error l (Z.to_nat (Z.of_nat (length l) + i)).
Proof.
  intro Hi. unfold py_getitem.
  destruct (Z.leb_spec 0 i); [lia |]. simpl.
  destruct (Z.leb_spec (- Z.of_nat (length l)) i); [| lia].
  destruct (Z.ltb_spec i 0); [| lia].
  reflexivity.
Qed.

Lemma py_getitem_None_iff {A : Type} (l : list A) (i : Z) :
  py_getitem l i = None
  <-> (i < - Z.of_nat (length l) \/ Z.of_nat (length l) <= i)%Z.
Proof.
  destruct (Z_lt_le_dec i (- Z.of_nat (length l))) as [Hlow | Hlow].
  - split; [intros _; left; exact Hlow |]. intros _. unfold py_getitem.
    destruct (Z.leb_spec 0 i); [lia |]. simpl.
    destruct (Z.leb_spec (- Z.of_nat (length l)) i); [lia |]. reflexivity.
  - destruct (Z_lt_le_dec i 0) as [Hneg | Hpos].
    + rewrite py_getitem_from_end by lia. split.
      * intro Hnone. apply nth_error_None in Hnone. lia.
      * intros [H | H]; lia.
    + destruct (Z_lt_le_dec i (Z.of_nat (length l))) as [Hin | Hout].
      * rewrite py_getitem_in_range by lia. split.
        -- intro Hnone. apply nth_error_None in Hnone. lia.
        -- intros [H | H]; lia.
      * split; [intros _; right; exact Hout |]. intros _. unfold py_getitem.
        destruct (Z.leb_spec 0 i); [| lia].
        destruct (Z.ltb_spec i (Z.of_nat (length l))); [lia |]. simpl.
        destruct (Z.leb_spec (- Z.of_nat (length l)) i); [| reflexivity].
        destruct (Z.ltb_spec i 0); [lia | reflexivity].
Qed.

Lemma py_getitem_middle {A : Type} (before after : list A) (x : A) :
  py_getitem (before ++ x :: after) (Z.of_nat (length before)) = Some x.
Proof.
  rewrite py_getitem_in_range.
  - rewrite Nat2Z.id, nth_error_app2 by lia.
    rewrite Nat.sub_diag. reflexivity.
  - rewrite length_app. simpl. lia.
Qed.

Lemma scan_devices_none (ds : list device) :
  forall (i : Z) (found : option Z),
    Forall (fun d => is_candidate d = false) ds ->
    fst (scan_devices i ds found) = found.
Proof.
  induction ds as [| d rest IH]; intros i found Hnone.
  - reflexivity.
  - pose proof (Forall_inv Hnone) as Hd.
    pose proof (Forall_inv_tail Hnone) as Hrest.
    unfold is_candidate in Hd. simpl.
    destruct (0 <? max_input_channels d)%Z; simpl in Hd.
    + rewrite Hd. specialize (IH (i + 1)%Z found Hrest).
      destruct (scan_devices (i + 1) rest found) as [f w]. exact IH.
    + apply IH. exact Hrest.
Qed.

Lemma scan_devices_last (before after : list device) (d : device) :
  is_candidate d = true ->
  Forall (fun d' => is_candidate d' = false) after ->
  forall (i : Z) (found : option Z),
    fst (scan_devices i (before ++ d :: after) found)
    = Some (i + Z.of_nat (length before))%Z.
Proof.
  intros Hd Hafter. unfold is_candidate in Hd.
  apply andb_true_iff in Hd. destruct Hd as [Hin Hname].
  induction before as [| b before IH]; intros i found.
  - simpl app. simpl. rewrite Hin, Hname.
    pose proof (scan_devices_none after (i + 1)%Z (Some i) Hafter) as Hrest.
    destruct (scan_devices (i + 1) after (Some i)) as [f w].
    simpl in Hrest |- *. rewrite Hrest. f_equal. lia.
  - simpl app. simpl scan_devices.
    assert (Hstep : forall f, fst (scan_devices (i + 1) (before ++ d :: after) f)
                              = Some (i + Z.of_nat (length (b :: before)))%Z).
    { intro f. rewrite IH. f_equal. simpl length. lia. }
    destruct (0 <? max_input_channels b)%Z.
    + destruct (looks_like_rocksmith b).
      * specialize (Hstep (Some i)).
        destruct (scan_devices (i + 1) (before ++ d :: after) (Some i)).
        exact Hstep.
      * specialize (Hstep found).
        destruct (scan_devices (i + 1) (before ++ d :: after) found).
        exact Hstep.
    + apply Hstep.
Qed.

Lemma scan_devices_prints (ds : list device) :
  forall (i : Z) (found : option Z) (ev : event),
    In ev (snd (scan_devices i ds found)) -> exists x, ev = Console x.
Proof.
  induction ds as [| d rest IH]; intros i found ev Hin.
  - destruct Hin.
  - simpl in Hin. destruct (0 <? max_input_channels d)%Z.
    + destruct (looks_like_rocksmith d).
      * specialize (IH (i + 1)%Z (Some i) ev).
        destruct (scan_devices (i + 1) rest (Some i)) as [f w].
        simpl in Hin, IH.
        destruct Hin as [Heq | [Heq | Hin]]; eauto.
      * specialize (IH (i + 1)%Z found ev).
        destruct (scan_devices (i + 1) rest found) as [f w].
        simpl in Hin, IH.
        destruct Hin as [Heq | Hin]; eauto.
    + apply (IH (i + 1)%Z found). exact Hin.
Qed.

(** X11. Automatic selection. When the list has input devices whose
    lowercased name contains one of the keywords, [setup_audio] selects the
    last of them, without asking the user and whatever the default device
    is; devices without input channels are never selected by name. The
    constructor then returns a fresh detector for that device with its
    preferred sample rate. *)
Theorem auto_detect_selects_last_match
  (before after : list device) (d : device) (typed : option Z) (dflt : Z) :
  is_candidate d = true ->
  Forall (fun d' => is_candidate d' = false) after ->
  exists w : list event,
    setup_audio (mk_audio_env (before ++ d :: after) typed dflt)
    = (Returned (Z.of_nat (length before), py_int (default_samplerate d)), w)
    /\ ~ In (Input DeviceNumberPrompt) w
    /\ construct (mk_audio_env (before ++ d :: after) typed dflt)
       = (Returned (init (Z.of_nat (length before))
                      (py_int (default_samplerate d))), w).
Proof.
  intros Hd Hafter.
  pose proof (scan_devices_last before after d Hd Hafter 0%Z None) as Hscan.
  pose proof (scan_devices_prints (before ++ d :: after) 0%Z None) as Hprints.
  unfold construct, setup_audio. simpl devices.
  destruct (scan_devices 0 (before ++ d :: after) None) as [found w_scan].
  simpl in Hscan, Hprints. rewrite Hscan. simpl fst. simpl snd.
  rewrite py_getitem_middle.
  eexists. split; [reflexivity |]. split; [| reflexivity].
  intros [Hin | Hin]; [discriminate |].
  apply in_app_or in Hin. destruct Hin as [Hin | Hin].
  - apply Hprints in Hin. destruct Hin as [x Hx]. discriminate.
  - simpl in Hin. destruct Hin as [Hin | Hin]; [discriminate |].
    destruct (py_int (default_samplerate d) =? 44100)%Z; simpl in Hin.
    + exact Hin.
    + destruct Hin as [Hin | []]. discriminate.
Qed.

Lemma auto_detect_selects_last_match_witness :
  is_candidate (mk_device "Rocksmith USB Guitar Adapter" 1 48000) = true
  /\ Forall (fun d' => is_candidate d' = false)
       [mk_device "Microphone Array" 2 44100]
  /\ exists w : list event,
       construct (mk_audio_env example_devices None 0)
       = (Returned (init 1 (py_int 48000)), w).
Proof.
  assert (Hd : is_candidate (mk_device "Rocksmith USB Guitar Adapter" 1 48000)
               = true) by (vm_compute; reflexivity).
  assert (Hafter : Forall (fun d' => is_candidate d' = false)
                     [mk_device "Microphone Array" 2 44100]).
  { apply Forall_cons; [vm_compute; reflexivity | apply Forall_nil]. }
  destruct (auto_detect_selects_last_match
              [mk_device "Speakers" 0 48000] [mk_device "Microphone Array" 2 44100]
              (mk_device "Rocksmith USB Guitar Adapter" 1 48000) None 0 Hd Hafter)
    as [w [_ [_ Hc]]].
  split; [exact Hd |]. split; [exact Hafter |].
  exists w. exact Hc.
Defined.

(** X12. Manual selection. When no input device is selected by name, the
    index looked up is the number the user typed, or the default input
    device when the line is not a number. An index from [0] to [len - 1]
    selects that device, a negative index down to [-len] counts from the end
    of the list while the negative number itself is stored as
    [device_index], and any other index makes the constructor raise; [main]
    then reports the failed setup and returns without showing the menu or
    reading any input. *)
Theorem manual_selection_checks_range (env : audio_env) :
  Forall (fun d => is_candidate d = false) (devices env) ->
  (forall info : device,
     py_getitem (devices env) (manual_choice env) = Some info ->
     exists w : list event,
       construct env
       = (Returned (init (manual_choice env) (py_int (default_samplerate info))), w)
       /\ In (Input DeviceNumberPrompt) w)
  /\ ((0 <= manual_choice env < Z.of_nat (length (devices env)))%Z ->
      py_getitem (devices env) (manual_choice env)
      = nth_error (devices env) (Z.to_nat (manual_choice env)))
  /\ ((- Z.of_nat (length (devices env)) <= manual_choice env < 0)%Z ->
      py_getitem (devices env) (manual_choice env)
      = nth_error (devices env)
          (Z.to_nat (Z.of_nat (length (devices env)) + manual_choice env)))
  /\ ((manual_choice env < - Z.of_nat (length (devices env))
       \/ Z.of_nat (length (devices env)) <= manual_choice env)%Z ->
      exists w : list event,
        construct env = (Raised (Exception "tuple index out of range"), w)
        /\ forall rounds : list menu_round,
             main env rounds
             = (Returned tt,
                [Console Title; Console Intro; Console BlankLine] ++ w
                ++ [Console (SetupFailed "tuple index out of range");
                    Console InstallHint])).
Proof.
  intro Hnone.
  pose proof (scan_devices_none (devices env) 0%Z None Hnone) as Hscan.
  assert (Hchosen :
    forall found w_scan, scan_devices 0 (devices env) None = (found, w_scan) ->
      exists w_ask,
        setup_audio env =
        match py_getitem (devices env) (manual_choice env) with
        | None =>
            (Raised (Exception "tuple index out of range"),
             Console AvailableDevices :: w_scan ++ w_ask)
        | Some info =>
            (Returned (manual_choice env, py_int (default_samplerate info)),
             Console AvailableDevices :: w_scan ++ w_ask
             ++ Console (UsingDevice (name info))
             :: (if Z.eqb (py_int (default_samplerate info)) 44100 then []
                 else [Console (AdjustingRate 44100
                                  (py_int (default_samplerate info)))]))
        end
        /\ In (Input DeviceNumberPrompt) w_ask).
  { intros found w_scan Heq. unfold setup_audio, manual_choice.
    rewrite Heq in Hscan |- *. simpl in Hscan. subst found.
    destruct (typed_device env) as [i |]; simpl fst; simpl snd.
    - eexists. split; [reflexivity |]. simpl. tauto.
    - eexists. split; [reflexivity |]. simpl. tauto. }
  destruct (scan_devices 0 (devices env) None) as [found w_scan] eqn:Hpair.
  destruct (Hchosen found w_scan eq_refl) as [w_ask [Hsetup Hask]].
  split.
  { intros info Hinfo. unfold construct. rewrite Hsetup, Hinfo.
    eexists. split; [reflexivity |].
    right. apply in_or_app. right. apply in_or_app. left. exact Hask. }
  split; [apply py_getitem_in_range |].
  split; [apply py_getitem_from_end |].
  intro Hout. apply py_getitem_None_iff in Hout.
  assert (Hc : construct env
               = (Raised (Exception "tuple index out of range"),
                  Console AvailableDevices :: w_scan ++ w_ask)).
  { unfold construct. rewrite Hsetup, Hout. reflexivity. }
  eexists. split; [exact Hc |].
  intro rounds. unfold main. rewrite Hc. reflexivity.
Qed.

Lemma manual_selection_checks_range_witness :
  Forall (fun d => is_candidate d = false) plain_devices
  /\ exists w : list event,
       construct (mk_audio_env plain_devices (Some 7%Z) 0)
       = (Raised (Exception "tuple index out of range"), w).
Proof.
  assert (Hnone : Forall (fun d => is_candidate d = false) plain_devices).
  { repeat (apply Forall_cons; [vm_compute; reflexivity |]). apply Forall_nil. }
  split; [exact Hnone |].
  destruct (manual_selection_checks_range
              (mk_audio_env plain_devices (Some 7%Z) 0) Hnone)
    as [_ [_ [_ Hout]]].
  destruct Hout as [w [Hc _]].
  - right. apply Z.leb_le. vm_compute. reflexivity.
  - exists w. exact Hc.
Defined.

Lemma setup_audio_returns (env : audio_env) (chosen rate : Z) (w : list event) :
  setup_audio env = (Returned (chosen, rate), w) ->
  exists info : device,
    py_getitem (devices env) chosen = Some info
    /\ rate = py_int (default_samplerate info).
Proof.
  unfold setup_audio.
  destruct (scan_devices 0 (devices env) None) as [found w_scan].
  match goal with
  | |- context [py_getitem (devices env) (fst ?c)] => set (pick := c)
  end.
  destruct (py_getitem (devices env) (fst pick)) as [info |] eqn:Hget.
  - intro Heq. injection Heq as Hchosen Hrate _.
    exists info. rewrite <- Hchosen. split; [exact Hget | symmetry; exact Hrate].
  - discriminate.
Qed.

Lemma init_RATE (chosen rate : Z) : RATE (init chosen rate) = rate.
Proof.
  simpl. destruct (Z.eqb_spec rate 44100) as [-> | _]; reflexivity.
Qed.

Lemma init_at_rest (chosen rate : Z) : at_rest (init chosen rate).
Proof.
  unfold at_rest. split; [reflexivity |].
  split; [apply init_history_invariant |]. simpl. lra.
Qed.

(** X13. Whenever the constructor returns a detector, its [device_index]
    denotes an existing entry of the device list (by Python's indexing) and
    its [RATE] is that device's preferred sample rate truncated to an
    integer, whether or not it differs from 44100; the detector is idle, has
    never triggered, has an empty history of capacity 5, threshold 0.01 and
    debounce time 0.2. *)
Theorem constructed_detector_is_fresh
  (env : audio_env) (clicker : detector) (w : list event) :
  construct env = (Returned clicker, w) ->
  (exists info : device,
     py_getitem (devices env) (device_index clicker) = Some info
     /\ RATE clicker = py_int (default_samplerate info))
  /\ clicker = init (device_index clicker) (RATE clicker)
  /\ is_running clicker = false
  /\ stop_event clicker = false
  /\ never_triggered clicker
  /\ volume_history clicker = deque_new 5
  /\ THRESHOLD clicker = 0.01
  /\ DEBOUNCE_TIME clicker = 0.2
  /\ at_rest clicker.
Proof.
  unfold construct.
  destruct (setup_audio env) as [[[chosen rate] | e] w'] eqn:Hsetup;
    [| discriminate].
  intro Heq. injection Heq as Hclicker _. subst clicker.
  destruct (setup_audio_returns env chosen rate w' Hsetup) as [info [Hget Hrate]].
  split.
  { exists info. rewrite init_RATE. split; [exact Hget | exact Hrate]. }
  split.
  { rewrite init_RATE. reflexivity. }
  repeat split; try reflexivity; try apply init_at_rest.
Qed.

Lemma constructed_detector_is_fresh_witness :
  exists (clicker : detector) (w : list event),
    construct (mk_audio_env example_devices None 0) = (Returned clicker, w)
    /\ is_running clicker = false
    /\ THRESHOLD clicker = 0.01.
Proof.
  destruct (construct (mk_audio_env example_devices None 0))
    as [[clicker | e] w] eqn:Hc.
  - exists clicker, w. split; [reflexivity |].
    destruct (constructed_detector_is_fresh _ clicker w Hc)
      as [_ [_ [Hidle [_ [_ [_ [Hthr _]]]]]]].
    split; assumption.
  - exfalso. revert Hc. unfold construct, setup_audio.
    vm_compute. discriminate.
Defined.

(** ** The menu loop *)

Lemma show_menu_unfold (s : detector) :
  show_menu s = (Returned tt, s, menu_events s).
Proof. reflexivity. Qed.

(** The loop plays the first round and, unless that round breaks out or
    raises, goes on with the others. *)
Lemma menu_loop_cons (r : menu_round) (rest : list menu_round) (s : detector) :
  menu_loop (r :: rest) s
  = (let* continue := play r in
     if continue then menu_loop rest else io_ret tt) s.
Proof.
  cbn [menu_loop]. unfold play.
  unfold io_bind. rewrite !show_menu_unfold.
  destruct (String.eqb (choice r) "1").
  { unfold say, ask, io_ret. cbn [app].
    destruct (lift (start (run r)) s) as [[[u | e] s1] w1]; [| reflexivity].
    destruct (menu_loop rest s1) as [[res s2] w2].
    rewrite ?app_nil_r. reflexivity. }
  destruct (String.eqb (choice r) "2").
  { unfold ask. fold (round_duration r).
    destruct (test_audio_levels (round_duration r) (test r) s)
      as [[[u | e] s1] w1]; [| reflexivity].
    unfold io_ret.
    destruct (menu_loop rest s1) as [[res s2] w2].
    rewrite ?app_nil_r. reflexivity. }
  destruct (String.eqb (choice r) "3").
  { unfold ask.
    destruct (match typed_threshold r with
              | Some new_threshold => lift (adjust_sensitivity new_threshold)
              | None => say InvalidNumber
              end s) as [[[u | e] s1] w1]; [| reflexivity].
    unfold io_ret.
    destruct (menu_loop rest s1) as [[res s2] w2].
    rewrite ?app_nil_r. reflexivity. }
  destruct (String.eqb (choice r) "4").
  { unfold io_ret. rewrite ?app_nil_r. reflexivity. }
  unfold say, io_ret.
  destruct (menu_loop rest s) as [[res s2] w2].
  rewrite ?app_nil_r. reflexivity.
Qed.

Lemma start_returns (r : stream_run) (s : detector) :
  result_of (start r s) = Returned tt.
Proof.
  destruct (is_running s) eqn:Hrun.
  - unfold start, bind, get. rewrite Hrun. reflexivity.
  - rewrite (start_unfold r s Hrun). reflexivity.
Qed.

Lemma test_audio_levels_state (duration : Z) (t : level_test) (s : detector) :
  io_state (test_audio_levels duration t s) = s.
Proof.
  rewrite test_audio_levels_unfold.
  destruct (test_open_error t); [reflexivity |].
  destruct (duration <? 0)%Z; [reflexivity |].
  destruct (test_interrupt t) as [[msg |] |]; reflexivity.
Qed.

Lemma test_audio_levels_console (duration : Z) (t : level_test) (s : detector) :
  forall ev : event,
    In ev (io_events (test_audio_levels duration t s)) ->
    exists x : console_text, ev = Console x.
Proof.
  intro ev. rewrite test_audio_levels_unfold.
  assert (Hlines : forall tail : list event,
            (forall e, In e tail -> exists x, e = Console x) ->
            In ev ([Console (TestingLevels duration); Console PlayYourGuitar]
                   ++ map (fun c => Console (meter_line c s)) (test_delivered t)
                   ++ tail) ->
            exists x, ev = Console x).
  { intros tail Htail Hin. apply in_app_or in Hin. destruct Hin as [Hin | Hin].
    - destruct Hin as [Heq | [Heq | []]]; eauto.
    - apply in_app_or in Hin. destruct Hin as [Hin | Hin].
      + apply meter_lines_only in Hin. destruct Hin as [v [bar [pos Heq]]]. eauto.
      + apply Htail. exact Hin. }
  assert (Hone : forall (x : console_text) (e : event),
            In e [Console x] -> exists y, e = Console y).
  { intros x e [Heq | []]. eauto. }
  destruct (test_open_error t) as [msg |].
  - unfold io_events. simpl. intros [Heq | [Heq | [Heq | []]]]; eauto.
  - destruct (duration <? 0)%Z.
    + unfold io_events. cbn [snd]. apply Hlines. apply Hone.
    + destruct (test_interrupt t) as [[msg |] |]; unfold io_events; cbn [snd].
      * apply Hlines. apply Hone.
      * intro Hin. apply (Hlines []); [intros e [] |].
        rewrite app_nil_r. exact Hin.
      * apply Hlines. apply Hone.
Qed.

Lemma test_audio_levels_result (duration : Z) (t : level_test) (s : detector) :
  (test_open_error t = None /\ (0 <= duration)%Z
   /\ test_interrupt t = Some KeyboardInterrupt
   /\ io_result (test_audio_levels duration t s) = Raised KeyboardInterrupt)
  \/ (~ (test_open_error t = None /\ (0 <= duration)%Z
         /\ test_interrupt t = Some KeyboardInterrupt)
      /\ io_result (test_audio_levels duration t s) = Returned tt).
Proof.
  rewrite test_audio_levels_unfold.
  destruct (test_open_error t) as [msg |].
  - right. split; [intros [H _]; discriminate | reflexivity].
  - destruct (duration <? 0)%Z eqn:Hneg.
    + apply Z.ltb_lt in Hneg. right.
      split; [intros [_ [H _]]; lia | reflexivity].
    + apply Z.ltb_ge in Hneg.
      destruct (test_interrupt t) as [[msg |] |].
      * right. split; [intros [_ [_ H]]; discriminate | reflexivity].
      * left. repeat split. exact Hneg.
      * right. split; [intros [_ [_ H]]; discriminate | reflexivity].
Qed.

Lemma after_click_same_setup (t v : R) (s : detector) :
  same_setup s (after_click t v s).
Proof.
  rewrite after_click_eq. unfold same_setup.
  destruct (decision t v s); repeat split.
Qed.

Lemma after_calls_same_setup (calls : list (R * R)) :
  forall s : detector,
    same_setup s (after_calls calls s)
    /\ THRESHOLD (after_calls calls s) = THRESHOLD s.
Proof.
  induction calls as [| [t v] rest IH]; intro s; simpl.
  - unfold same_setup. repeat split.
  - destruct (IH (after_click t v s)) as [Hsame Hthr].
    pose proof (after_click_same_setup t v s) as Hstep.
    unfold same_setup in *. rewrite Hthr, after_click_THRESHOLD.
    repeat split; try reflexivity; intuition congruence.
Qed.

Lemma start_same_setup (r : stream_run) (s : detector) :
  same_setup s (state_of (start r s))
  /\ THRESHOLD (state_of (start r s)) = THRESHOLD s
  /\ (is_running s = false -> is_running (state_of (start r s)) = false).
Proof.
  destruct (is_running s) eqn:Hrun.
  - unfold start, bind, get. rewrite Hrun. unfold state_of, same_setup. simpl.
    repeat split. discriminate.
  - rewrite (start_unfold r s Hrun). unfold state_of. cbn [fst snd].
    destruct (after_calls_same_setup (map callback_call (delivered r)) (started s))
      as [Hsame Hthr].
    unfold same_setup in *. simpl in *. repeat split; intuition congruence.
Qed.

Lemma deliver_effects_kinds (cs : list callback) :
  forall (s : detector) (e : effect),
    In e (deliver_effects cs s) ->
    (exists st, e = Print (AudioStatus st)) \/ (exists v, e = SpawnClick v).
Proof.
  induction cs as [| c rest IH]; intros s e Hin.
  - destruct Hin.
  - simpl in Hin. apply in_app_or in Hin. destruct Hin as [Hin | Hin].
    + unfold callback_effects in Hin. apply in_app_or in Hin.
      destruct Hin as [Hin | Hin].
      * destruct (status c); [| destruct Hin].
        destruct Hin as [Heq | []]. left. eauto.
      * destruct (decision _ _ s); [| destruct Hin].
        destruct Hin as [Heq | []]. right. eauto.
    + apply (IH _ e Hin).
Qed.

Lemma idle_start_never_says_running (r : stream_run) (s : detector) :
  is_running s = false ->
  ~ In (Print AlreadyRunning) (effects_of (start r s)).
Proof.
  intros Hidle Hin. rewrite (start_unfold r s Hidle) in Hin.
  unfold effects_of in Hin. cbn [snd] in Hin.
  apply in_app_or in Hin. destruct Hin as [Hin | Hin].
  - destruct Hin as [Heq | [Heq | [Heq | []]]]; discriminate.
  - apply in_app_or in Hin. destruct Hin as [Hin | Hin].
    + apply in_app_or in Hin. destruct Hin as [Hin | Hin].
      * apply deliver_effects_kinds in Hin.
        destruct Hin as [[st Heq] | [v Heq]]; discriminate.
      * destruct (ending r); simpl in Hin; intuition discriminate.
    + destruct Hin as [Heq | [Heq | []]]; discriminate.
Qed.

(** What one round does, by the choice typed. *)
Lemma play_cases (r : menu_round) (s : detector) :
  (choice r = "1"%string
   /\ play r s
      = (Returned true, state_of (start (run r) s),
         menu_events s
         ++ [Console TipsHeader; Console (TipLine 1); Console (TipLine 2);
             Console (TipLine 3); Console BlankLine; Input PressEnterPrompt]
         ++ map Detector (effects_of (start (run r) s))))
  \/ (choice r = "2"%string
      /\ play r s
         = (match io_result (test_audio_levels (round_duration r) (test r) s) with
            | Returned _ => Returned true
            | Raised e => Raised e
            end, s,
            menu_events s
            ++ Input DurationPrompt
            :: io_events (test_audio_levels (round_duration r) (test r) s)))
  \/ (choice r = "3"%string
      /\ exists x : R,
           typed_threshold r = Some x
           /\ play r s
              = (Returned true, state_of (adjust_sensitivity x s),
                 menu_events s
                 ++ Input SensitivityPrompt
                 :: map Detector (effects_of (adjust_sensitivity x s))))
  \/ (choice r = "3"%string
      /\ typed_threshold r = None
      /\ play r s
         = (Returned true, s,
            menu_events s ++ [Input SensitivityPrompt; Console InvalidNumber]))
  \/ (choice r = "4"%string
      /\ play r s = (Returned false, s, menu_events s))
  \/ (choice r <> "1"%string /\ choice r <> "2"%string
      /\ choice r <> "3"%string /\ choice r <> "4"%string
      /\ play r s
         = (Returned true, s, menu_events s ++ [Console InvalidChoice])).
Proof.
  unfold play, io_bind. rewrite show_menu_unfold.
  destruct (String.eqb_spec (choice r) "1") as [H1 | H1].
  { left. split; [exact H1 |].
    unfold say, ask, io_ret, lift. cbn [app].
    pose proof (start_returns (run r) s) as Hret.
    destruct (start (run r) s) as [[res s1] w1].
    unfold result_of, state_of, effects_of in *. simpl in Hret. subst res.
    cbn [fst snd]. rewrite ?app_nil_r. reflexivity. }
  destruct (String.eqb_spec (choice r) "2") as [H2 | H2].
  { right. left. split; [exact H2 |].
    unfold ask, io_ret.
    pose proof (test_audio_levels_state (round_duration r) (test r) s) as Hst.
    destruct (test_audio_levels (round_duration r) (test r) s)
      as [[[u | e] s1] w1]; unfold io_state, io_result, io_events in *;
      simpl in Hst; subst s1; cbn [fst snd]; rewrite ?app_nil_r; reflexivity. }
  destruct (String.eqb_spec (choice r) "3") as [H3 | H3].
  { destruct (typed_threshold r) as [x |] eqn:Hx.
    - right. right. left. split; [exact H3 |]. exists x. split; [reflexivity |].
      unfold ask, io_ret, lift. rewrite adjust_sensitivity_unfold.
      unfold state_of, effects_of. cbn [fst snd]. reflexivity.
    - right. right. right. left. split; [exact H3 |]. split; [reflexivity |].
      reflexivity. }
  destruct (String.eqb_spec (choice r) "4") as [H4 | H4].
  { right. right. right. right. left. split; [exact H4 |].
    unfold io_ret. rewrite app_nil_r. reflexivity. }
  right. right. right. right. right.
  repeat split; try assumption.
Qed.

Lemma menu_events_console (s : detector) (ev : event) :
  In ev (menu_events s) -> forall e : effect, ev <> Detector e.
Proof.
  intros Hin e Heq. subst ev. unfold menu_events in Hin. simpl in Hin.
  repeat (destruct Hin as [Hin | Hin]; [discriminate |]). exact Hin.
Qed.

Lemma same_setup_trans (s1 s2 s3 : detector) :
  same_setup s1 s2 -> same_setup s2 s3 -> same_setup s1 s3.
Proof. unfold same_setup. intuition congruence. Qed.

Lemma same_setup_refl (s : detector) : same_setup s s.
Proof. unfold same_setup. repeat split. Qed.

Lemma play_at_rest (r : menu_round) (s : detector) :
  at_rest s ->
  at_rest (io_state (play r s))
  /\ same_setup s (io_state (play r s))
  /\ ~ In (Detector (Print AlreadyRunning)) (io_events (play r s)).
Proof.
  intros [Hidle [Hhist Hthr]].
  assert (Hrest : at_rest s) by (split; [exact Hidle | split; [exact Hhist | exact Hthr]]).
  assert (Hmenu : ~ In (Detector (Print AlreadyRunning)) (menu_events s)).
  { intro Hin. apply (menu_events_console s _ Hin (Print AlreadyRunning)).
    reflexivity. }
  destruct (play_cases r s)
    as [[_ Heq] | [[_ Heq] | [[_ [x [_ Heq]]] | [[_ [_ Heq]] | [[_ Heq] | [_ [_ [_ [_ Heq]]]]]]]]];
    rewrite Heq; unfold io_state, io_events; cbn [fst snd].
  - destruct (start_same_setup (run r) s) as [Hsame [Hthr' Hidle']].
    split.
    { unfold at_rest. rewrite Hthr'.
      split; [apply Hidle'; exact Hidle |].
      split; [apply start_history_invariant; exact Hhist | exact Hthr]. }
    split; [exact Hsame |].
    intro Hin. apply in_app_or in Hin. destruct Hin as [Hin | Hin]; [tauto |].
    apply in_app_or in Hin. destruct Hin as [Hin | Hin].
    + simpl in Hin. repeat (destruct Hin as [Hin | Hin]; [discriminate |]).
      exact Hin.
    + apply in_map_iff in Hin. destruct Hin as [e [He Hin]].
      injection He as He. subst e.
      apply (idle_start_never_says_running (run r) s Hidle Hin).
  - split; [exact Hrest |]. split; [apply same_setup_refl |].
    intro Hin. apply in_app_or in Hin. destruct Hin as [Hin | Hin]; [tauto |].
    destruct Hin as [Hin | Hin]; [discriminate |].
    apply test_audio_levels_console in Hin. destruct Hin as [y Hy].
    discriminate.
  - rewrite adjust_sensitivity_unfold. unfold state_of, effects_of.
    cbn [fst snd map].
    split.
    { unfold at_rest. simpl. split; [exact Hidle |].
      split; [exact Hhist |]. pose proof (clamp_bounds x) as Hb. lra. }
    split; [unfold same_setup; repeat split |].
    intro Hin. apply in_app_or in Hin. destruct Hin as [Hin | Hin]; [tauto |].
    simpl in Hin. repeat (destruct Hin as [Hin | Hin]; [discriminate |]).
    exact Hin.
  - split; [exact Hrest |]. split; [apply same_setup_refl |].
    intro Hin. apply in_app_or in Hin. destruct Hin as [Hin | Hin]; [tauto |].
    simpl in Hin. repeat (destruct Hin as [Hin | Hin]; [discriminate |]).
    exact Hin.
  - split; [exact Hrest |]. split; [apply same_setup_refl | exact Hmenu].
  - split; [exact Hrest |]. split; [apply same_setup_refl |].
    intro Hin. apply in_app_or in Hin. destruct Hin as [Hin | Hin]; [tauto |].
    simpl in Hin. repeat (destruct Hin as [Hin | Hin]; [discriminate |]).
    exact Hin.
Qed.

Lemma menu_loop_at_rest (rounds : list menu_round) :
  forall s : detector,
    at_rest s ->
    at_rest (io_state (menu_loop rounds s))
    /\ same_setup s (io_state (menu_loop rounds s))
    /\ ~ In (Detector (Print AlreadyRunning)) (io_events (menu_loop rounds s)).
Proof.
  induction rounds as [| r rest IH]; intros s Hrest.
  - unfold io_state, io_events. simpl.
    split; [exact Hrest |]. split; [apply same_setup_refl |].
    intro Hin. repeat (destruct Hin as [Hin | Hin]; [discriminate |]).
    exact Hin.
  - rewrite menu_loop_cons. unfold io_bind.
    destruct (play_at_rest r s Hrest) as [Hrest1 [Hsame1 Hquiet1]].
    destruct (play r s) as [[[continue | e] s1] w1];
      unfold io_state, io_events in *; cbn [fst snd] in *.
    + destruct continue.
      * destruct (IH s1 Hrest1) as [Hrest2 [Hsame2 Hquiet2]].
        destruct (menu_loop rest s1) as [[res s2] w2].
        cbn [fst snd] in *.
        split; [exact Hrest2 |].
        split; [apply (same_setup_trans s s1 s2); assumption |].
        intro Hin. apply in_app_or in Hin. tauto.
      * unfold io_ret. cbn [fst snd]. rewrite app_nil_r.
        split; [exact Hrest1 |]. split; [exact Hsame1 | exact Hquiet1].
    + split; [exact Hrest1 |]. split; [exact Hsame1 | exact Hquiet1].
Qed.

Lemma construct_events (env : audio_env) (ev : event) :
  In ev (snd (construct env)) -> forall e : effect, ev <> Detector e.
Proof.
  unfold construct, setup_audio.
  pose proof (scan_devices_prints (devices env) 0%Z None) as Hscan.
  destruct (scan_devices 0 (devices env) None) as [found w_scan].
  cbn [snd] in Hscan.
  match goal with
  | |- context [py_getitem (devices env) (fst ?c)] => set (pick := c)
  end.
  assert (Hpick : forall x, In x (snd pick) -> forall e, x <> Detector e).
  { intros x Hin e Heq. subst x. unfold pick in Hin.
    destruct found; [destruct Hin |].
    destruct (typed_device env); simpl in Hin;
      repeat (destruct Hin as [Hin | Hin]; [discriminate |]); exact Hin. }
  intros Hin e Heq. subst ev.
  destruct (py_getitem (devices env) (fst pick)) as [info |]; cbn [snd] in Hin.
  - destruct Hin as [Hin | Hin]; [discriminate |].
    apply in_app_or in Hin. destruct Hin as [Hin | Hin].
    + apply Hscan in Hin. destruct Hin as [x Hx]. discriminate.
    + apply in_app_or in Hin. destruct Hin as [Hin | Hin].
      * apply (Hpick _ Hin e). reflexivity.
      * destruct Hin as [Hin | Hin]; [discriminate |].
        destruct (py_int (default_samplerate info) =? 44100)%Z;
          simpl in Hin; intuition discriminate.
  - destruct Hin as [Hin | Hin]; [discriminate |].
    apply in_app_or in Hin. destruct Hin as [Hin | Hin].
    + apply Hscan in Hin. destruct Hin as [x Hx]. discriminate.
    + apply (Hpick _ Hin e). reflexivity.
Qed.

(** X14. A session of the menu keeps the detector sane. From a detector at
    rest (idle, bounded history, threshold in [0.001, 1]), after any rounds
    of the menu, however each run ends and whatever is typed, the detector
    is at rest again and its chunk size, channels, rate, debounce time,
    window size and device are untouched; in particular every [start()] of
    a session finds the detector idle, so in [main], whose detector starts
    fresh, the already-running line is never printed. *)
Theorem session_keeps_detector_at_rest (rounds : list menu_round) (s : detector) :
  at_rest s ->
  at_rest (io_state (menu_loop rounds s))
  /\ same_setup s (io_state (menu_loop rounds s))
  /\ ~ In (Detector (Print AlreadyRunning)) (io_events (menu_loop rounds s))
  /\ (forall env : audio_env,
        ~ In (Detector (Print AlreadyRunning)) (snd (main env rounds))).
Proof.
  intro Hrest.
  destruct (menu_loop_at_rest rounds s Hrest) as [H1 [H2 H3]].
  split; [exact H1 |]. split; [exact H2 |]. split; [exact H3 |].
  intros env Hin. unfold main in Hin.
  pose proof (construct_events env) as Hsetup.
  destruct (construct env) as [[clicker | [msg |]] w] eqn:Hc; cbn [snd] in Hsetup.
  - assert (Hfresh : at_rest clicker).
    { unfold construct in Hc.
      destruct (setup_audio env) as [[[chosen rate] | e] w0]; [| discriminate].
      injection Hc as Hc _. subst clicker. apply init_at_rest. }
    destruct (menu_loop_at_rest rounds clicker Hfresh) as [_ [_ Hquiet]].
    unfold io_bind, say in Hin.
    destruct (menu_loop rounds clicker) as [[[u | e] s1] w1];
      unfold io_events in Hquiet; cbn [snd] in Hquiet, Hin.
    + apply in_app_or in Hin. destruct Hin as [Hin | Hin].
      * simpl in Hin. intuition discriminate.
      * apply in_app_or in Hin. destruct Hin as [Hin | Hin].
        -- apply (Hsetup _ Hin (Print AlreadyRunning)). reflexivity.
        -- apply in_app_or in Hin. destruct Hin as [Hin | Hin]; [tauto |].
           simpl in Hin. intuition discriminate.
    + apply in_app_or in Hin. destruct Hin as [Hin | Hin].
      * simpl in Hin. intuition discriminate.
      * apply in_app_or in Hin. destruct Hin as [Hin | Hin]; [| tauto].
        apply (Hsetup _ Hin (Print AlreadyRunning)). reflexivity.
  - cbn [snd] in Hin. apply in_app_or in Hin. destruct Hin as [Hin | Hin].
    + simpl in Hin. intuition discriminate.
    + apply in_app_or in Hin. destruct Hin as [Hin | Hin].
      * apply (Hsetup _ Hin (Print AlreadyRunning)). reflexivity.
      * simpl in Hin. intuition discriminate.
  - cbn [snd] in Hin. apply in_app_or in Hin. destruct Hin as [Hin | Hin].
    + simpl in Hin. intuition discriminate.
    + apply (Hsetup _ Hin (Print AlreadyRunning)). reflexivity.
Qed.

Lemma session_keeps_detector_at_rest_witness :
  at_rest (init 0 44100)
  /\ at_rest (io_state (menu_loop [round_of "1"; round_of "3"; round_of "4"]
                          (init 0 44100))).
Proof.
  split; [apply init_at_rest |].
  apply (session_keeps_detector_at_rest
           [round_of "1"; round_of "3"; round_of "4"] (init 0 44100)).
  apply init_at_rest.
Defined.

Lemma play_continues (r : menu_round) (s : detector) :
  continues r ->
  exists (s1 : detector) (w1 : list event),
    play r s = (Returned true, s1, w1).
Proof.
  intros [Hnot4 Hnot_int].
  destruct (play_cases r s)
    as [[_ Heq] | [[H2 Heq] | [[_ [x [_ Heq]]] | [[_ [_ Heq]] | [[H4 _] | [_ [_ [_ [_ Heq]]]]]]]]];
    try (rewrite Heq; eauto; fail).
  - rewrite Heq.
    destruct (test_audio_levels_result (round_duration r) (test r) s)
      as [[Hopen [Hd [Hint _]]] | [_ Hres]].
    + exfalso. apply Hnot_int. unfold interrupted_test. tauto.
    + rewrite Hres. eauto.
  - contradiction.
Qed.

Lemma play_quits (r : menu_round) (s : detector) :
  choice r = "4"%string -> play r s = (Returned false, s, menu_events s).
Proof.
  intro H4.
  destruct (play_cases r s)
    as [[H _] | [[H _] | [[H _] | [[H _] | [[_ Heq] | [_ [_ [_ [H _]]]]]]]]];
    try (rewrite H4 in H; discriminate); try contradiction.
  exact Heq.
Qed.

Lemma play_interrupted (r : menu_round) (s : detector) :
  interrupted_test r ->
  exists w1 : list event, play r s = (Raised KeyboardInterrupt, s, w1).
Proof.
  intros [H2 [Hopen [Hd Hint]]].
  destruct (play_cases r s)
    as [[H _] | [[_ Heq] | [[H _] | [[H _] | [[H _] | [_ [H _]]]]]]];
    try (rewrite H2 in H; discriminate); try contradiction.
  rewrite Heq.
  destruct (test_audio_levels_result (round_duration r) (test r) s)
    as [[_ [_ [_ Hres]]] | [Hnot _]].
  - rewrite Hres. eauto.
  - exfalso. apply Hnot. tauto.
Qed.

Lemma menu_loop_after_quit (before after : list menu_round) (q : menu_round) :
  choice q = "4"%string ->
  forall s : detector,
    menu_loop (before ++ q :: after) s = menu_loop (before ++ [q]) s.
Proof.
  intro H4. induction before as [| r rest IH]; intro s.
  - simpl app. rewrite !menu_loop_cons. unfold io_bind.
    rewrite (play_quits q s H4). reflexivity.
  - simpl app. rewrite !menu_loop_cons. unfold io_bind.
    destruct (play r s) as [[[continue | e] s1] w1]; [| reflexivity].
    destruct continue; [| reflexivity].
    rewrite IH. reflexivity.
Qed.

Lemma menu_loop_reaches_quit (before : list menu_round) (q : menu_round) :
  choice q = "4"%string ->
  Forall continues before ->
  forall s : detector, io_result (menu_loop (before ++ [q]) s) = Returned tt.
Proof.
  intros H4 Hbefore. induction Hbefore as [| r rest Hr _ IH]; intro s.
  - simpl app. rewrite menu_loop_cons. unfold io_bind.
    rewrite (play_quits q s H4). reflexivity.
  - simpl app. rewrite menu_loop_cons. unfold io_bind.
    destruct (play_continues r s Hr) as [s1 [w1 Heq]]. rewrite Heq.
    specialize (IH s1). unfold io_result in *.
    destruct (menu_loop (rest ++ [q]) s1) as [[res s2] w2].
    simpl in IH |- *. exact IH.
Qed.

(** X15. The menu ends at the first choice of 4. When the rounds before it
    all continue (no earlier 4 and no level test interrupted by Ctrl+C, while
    runs of the clicking mode may end by Ctrl+C or a stream error), the loop
    returns normally; the rounds after the 4 are never played; and [main],
    once its detector is constructed, returns normally with the goodbye line
    printed last. *)
Theorem menu_ends_at_first_quit
  (before after : list menu_round) (q : menu_round) (s : detector) :
  choice q = "4"%string ->
  Forall continues before ->
  io_result (menu_loop (before ++ q :: after) s) = Returned tt
  /\ menu_loop (before ++ q :: after) s = menu_loop (before ++ [q]) s
  /\ (forall (env : audio_env) (clicker : detector) (w : list event),
        construct env = (Returned clicker, w) ->
        fst (main env (before ++ q :: after)) = Returned tt
        /\ exists w' : list event,
             snd (main env (before ++ q :: after)) = w' ++ [Console Goodbye]).
Proof.
  intros H4 Hbefore.
  split.
  { rewrite (menu_loop_after_quit before after q H4).
    apply menu_loop_reaches_quit; assumption. }
  split; [apply menu_loop_after_quit; exact H4 |].
  intros env clicker w Hc. unfold main. rewrite Hc.
  unfold io_bind, say.
  rewrite (menu_loop_after_quit before after q H4).
  pose proof (menu_loop_reaches_quit before q H4 Hbefore clicker) as Hres.
  unfold io_result in Hres.
  destruct (menu_loop (before ++ [q]) clicker) as [[res s1] w1].
  simpl in Hres. subst res. cbn [fst snd].
  split; [reflexivity |].
  exists ([Console Title; Console Intro; Console BlankLine] ++ w ++ w1).
  rewrite <- !app_assoc. reflexivity.
Qed.

Lemma continues_round_of_1 : continues (round_of "1").
Proof.
  split; [discriminate |]. intros [H2 _]. discriminate.
Qed.

Lemma menu_ends_at_first_quit_witness :
  choice (round_of "4") = "4"%string
  /\ Forall continues [round_of "1"]
  /\ io_result (menu_loop ([round_of "1"] ++ round_of "4" :: [round_of "3"])
                  (init 0 44100)) = Returned tt.
Proof.
  assert (Hbefore : Forall continues [round_of "1"]).
  { apply Forall_cons; [apply continues_round_of_1 | apply Forall_nil]. }
  split; [reflexivity |]. split; [exact Hbefore |].
  apply (menu_ends_at_first_quit [round_of "1"] [round_of "3"] (round_of "4")
           (init 0 44100) eq_refl Hbefore).
Defined.

Lemma menu_loop_interrupted (before after : list menu_round) (r : menu_round) :
  Forall continues before ->
  interrupted_test r ->
  forall s : detector,
    io_result (menu_loop (before ++ r :: after) s) = Raised KeyboardInterrupt.
Proof.
  intros Hbefore Hint. induction Hbefore as [| r0 rest Hr0 _ IH]; intro s.
  - simpl app. rewrite menu_loop_cons. unfold io_bind.
    destruct (play_interrupted r s Hint) as [w1 Heq]. rewrite Heq. reflexivity.
  - simpl app. rewrite menu_loop_cons. unfold io_bind.
    destruct (play_continues r0 s Hr0) as [s1 [w1 Heq]]. rewrite Heq.
    specialize (IH s1). unfold io_result in *.
    destruct (menu_loop (rest ++ r :: after) s1) as [[res s2] w2].
    simpl in IH |- *. exact IH.
Qed.

(** X16. Ctrl+C is handled in the clicking mode only. A round of choice 1
    always returns to the menu, with the detector stopped, also when its run
    ends by Ctrl+C; a round of choice 2 whose sleep is interrupted by Ctrl+C
    raises [KeyboardInterrupt] out of the menu loop and out of [main],
    whatever rounds would follow. *)
Theorem ctrl_c_ends_main_in_level_test_only
  (before after : list menu_round) (r : menu_round) (s : detector) :
  Forall continues before ->
  interrupted_test r ->
  io_result (menu_loop (before ++ r :: after) s) = Raised KeyboardInterrupt
  /\ (forall (env : audio_env) (clicker : detector) (w : list event),
        construct env = (Returned clicker, w) ->
        fst (main env (before ++ r :: after)) = Raised KeyboardInterrupt)
  /\ (forall (r1 : menu_round) (s1 : detector),
        choice r1 = "1"%string ->
        io_result (menu_loop (r1 :: after) s1)
        = io_result (menu_loop after (state_of (start (run r1) s1)))).
Proof.
  intros Hbefore Hint.
  split; [apply menu_loop_interrupted; assumption |].
  split.
  - intros env clicker w Hc. unfold main. rewrite Hc. unfold io_bind.
    pose proof (menu_loop_interrupted before after r Hbefore Hint clicker) as Hres.
    unfold io_result in Hres.
    destruct (menu_loop (before ++ r :: after) clicker) as [[res s1] w1].
    simpl in Hres. subst res. reflexivity.
  - intros r1 s1 H1. rewrite menu_loop_cons. unfold io_bind.
    destruct (play_cases r1 s1)
      as [[_ Heq] | [[H _] | [[H _] | [[H _] | [[H _] | [H _]]]]]];
      try (rewrite H1 in H; discriminate); try contradiction.
    rewrite Heq. unfold io_result.
    destruct (menu_loop after (state_of (start (run r1) s1))) as [[res s2] w2].
    reflexivity.
Qed.

Lemma ctrl_c_ends_main_in_level_test_only_witness :
  Forall continues [round_of "1"]
  /\ interrupted_test interrupted_round
  /\ io_result (menu_loop ([round_of "1"] ++ interrupted_round :: [round_of "4"])
                  (init 0 44100)) = Raised KeyboardInterrupt.
Proof.
  assert (Hbefore : Forall continues [round_of "1"]).
  { apply Forall_cons; [apply continues_round_of_1 | apply Forall_nil]. }
  assert (Hint : interrupted_test interrupted_round).
  { unfold interrupted_test.
    split; [reflexivity |]. split; [reflexivity |].
    split; [apply Z.leb_le; reflexivity | reflexivity]. }
  split; [exact Hbefore |]. split; [exact Hint |].
  apply (ctrl_c_ends_main_in_level_test_only [round_of "1"] [round_of "4"]
           interrupted_round (init 0 44100) Hbefore Hint).
Defined.

(** ** The click action *)

(** X17. [click_mouse] contains the failures of the click: whatever
    [pyautogui.click()] does, the detector is left as it was; a successful
    click prints the click line, an [Exception] raised by the click prints
    the error line instead and the call still returns normally, and only
    [KeyboardInterrupt] passes through. *)
Theorem click_errors_are_contained
  (pyautogui_click : option exn) (volume : R) (s : detector) :
  io_state (click_mouse pyautogui_click volume s) = s
  /\ (pyautogui_click = None ->
      click_mouse pyautogui_click volume s
      = (Returned tt, s, [Console (ClickLine volume)]))
  /\ (forall msg : string,
        pyautogui_click = Some (Exception msg) ->
        click_mouse pyautogui_click volume s
        = (Returned tt, s, [Console (ClickErrorLine msg)]))
  /\ (io_result (click_mouse pyautogui_click volume s) = Returned tt
      <-> pyautogui_click <> Some KeyboardInterrupt).
Proof.
  destruct pyautogui_click as [[msg |] |]; unfold io_state, io_result; simpl.
  - split; [reflexivity |]. split; [discriminate |].
    split; [intros m Hm; injection Hm as ->; reflexivity |].
    split; [discriminate | reflexivity].
  - split; [reflexivity |]. split; [discriminate |].
    split; [discriminate |].
    split; [discriminate | intro H; exfalso; apply H; reflexivity].
  - split; [reflexivity |]. split; [reflexivity |].
    split; [discriminate |].
    split; [discriminate | reflexivity].
Qed.
